(** * updater/updater.cpp: the update orchestrator and its command pipe

    A shallow embedding of [Updater::RunUpdate], [Updater::WriteToCommandPipe],
    [Updater::UiPrint] and [Updater::ParseAndReportErrorCode], and the
    properties of the lines they send to the parent process.

    Conventions.
    - A [std::string] is a [string]: a sequence of bytes that may hold the
      byte 0. [c_str] is the [const char*] view of it, which ends at the
      first byte 0.
    - An [int] is a [Z] between [INT_MIN] and [INT_MAX].
    - What the updater does is recorded as a list of [event]s, in the order
      the statements run: every [fprintf] to [cmd_pipe_], every [fflush],
      every [LOG] line, and every call to the script engine. *)

From Stdlib Require Import ZArith String Ascii List Bool Lia DecimalString.
Import ListNotations.

Local Open Scope string_scope.
Local Open Scope Z_scope.

(** The newline character and the one-character string holding it. *)
Definition nl : ascii := "010"%char.
Definition LF : string := String nl EmptyString.

(** ** The C library, as far as the updater uses it *)
Module libc.

Definition INT_MIN : Z := - 2147483648.
Definition INT_MAX : Z := 2147483647.
Definition EOF : Z := - 1.

Definition NUL : ascii := "000"%char.

(** [s.c_str()] read as a C string: the bytes before the first byte 0. *)
Fixpoint c_str (s : string) : string :=
  match s with
  | EmptyString => EmptyString
  | String c rest => if Ascii.eqb c NUL then EmptyString else String c (c_str rest)
  end.

(** [isspace] and [isdigit] in the C locale. *)
Definition isspace (c : ascii) : bool :=
  let n := nat_of_ascii c in
  (Nat.eqb n 32 || (Nat.leb 9 n && Nat.leb n 13))%bool.

Definition isdigit (c : ascii) : bool :=
  let n := nat_of_ascii c in
  (Nat.leb 48 n && Nat.leb n 57)%bool.

Definition digit_value (c : ascii) : Z := Z.of_nat (nat_of_ascii c) - 48.

Fixpoint skip_space (s : string) : string :=
  match s with
  | EmptyString => EmptyString
  | String c rest => if isspace c then skip_space rest else s
  end.

(** The longest prefix of decimal digits, and what follows it. *)
Fixpoint take_digits (s : string) : string :=
  match s with
  | EmptyString => EmptyString
  | String c rest => if isdigit c then String c (take_digits rest) else EmptyString
  end.

Fixpoint drop_digits (s : string) : string :=
  match s with
  | EmptyString => EmptyString
  | String c rest => if isdigit c then drop_digits rest else s
  end.

(** The number a string of decimal digits denotes, most significant first. *)
Fixpoint digits_value (acc : Z) (ds : string) : Z :=
  match ds with
  | EmptyString => acc
  | String c rest => digits_value (10 * acc + digit_value c) rest
  end.

Definition in_int_range (v : Z) : bool := (INT_MIN <=? v) && (v <=? INT_MAX).

(** The [%d] of [printf]. *)
Definition string_of_int (v : Z) : string := NilZero.string_of_int (Z.to_int v).

(** The arguments of a [printf] call. *)
Inductive printf_arg : Type :=
| ArgS (s : string)   (* a [const char*] for [%s] *)
| ArgD (v : Z).       (* an [int] for [%d] *)

(** [sprintf] for the conversions the updater uses: [%s] and [%d]. A
    conversion without an argument of its kind prints nothing (the updater
    has no such call). *)
Fixpoint sprintf (fmt : string) (args : list printf_arg) : string :=
  match fmt with
  | EmptyString => EmptyString
  | String c rest =>
      if Ascii.eqb c "%" then
        match rest with
        | String k rest' =>
            if Ascii.eqb k "s" then
              match args with
              | ArgS s :: args' => c_str s ++ sprintf rest' args'
              | _ => sprintf rest' args
              end
            else if Ascii.eqb k "d" then
              match args with
              | ArgD v :: args' => string_of_int v ++ sprintf rest' args'
              | _ => sprintf rest' args
              end
            else String c (sprintf rest args)
        | EmptyString => String c EmptyString
        end
      else String c (sprintf rest args)
  end.

Section Sscanf.

(** What the library stores through the [int*] when the digits read by [%d]
    denote a number no [int] holds: the C standard leaves it undefined, so it
    is a parameter here, brought back into the range of [int]. *)
Variable out_of_range : Z -> Z.

Definition wrap_int (v : Z) : Z := (v - INT_MIN) mod 4294967296 + INT_MIN.

Definition store_int (v : Z) : Z :=
  if in_int_range v then v else wrap_int (out_of_range v).

(** [sscanf(s, "E%d: ", &x)]: the value returned and the value stored in
    [x], if one is stored.
    - The directive [E] needs the character E: at the end of the input the
      call returns [EOF], on another character it returns 0.
    - [%d] skips white space, then reads an optional sign and the longest
      run of decimal digits. At the end of the input it returns [EOF];
      without a digit it returns 0; otherwise the number is stored and counts
      as one conversion.
    - What follows in the format, a colon and white space, is matched
      against the input after the number, but whether it matches changes
      neither the value returned nor the value stored. *)
Definition sscanf_E_d (s : string) : Z * option Z :=
  match s with
  | EmptyString => (EOF, None)
  | String c rest =>
      if Ascii.eqb c "E" then
        match skip_space rest with
        | EmptyString => (EOF, None)
        | String d body as r =>
            let neg := Ascii.eqb d "-" in
            let num := if (neg || Ascii.eqb d "+")%bool then body else r in
            match take_digits num with
            | EmptyString => (0, None)
            | ds =>
                let v := digits_value 0 ds in
                (1, Some (store_int (if neg then - v else v)))
            end
        end
      else (0, None)
  end.

End Sscanf.

End libc.

(** ** android-base/strings.h *)
Module android_base.

Fixpoint is_delimiter (c : ascii) (delimiters : string) : bool :=
  match delimiters with
  | EmptyString => false
  | String d rest => (Ascii.eqb c d || is_delimiter c rest)%bool
  end.

(** [android::base::Split(s, delimiters)]: the pieces of [s] between the
    delimiter characters, in order; a string with n delimiters has n + 1
    pieces, so "line1\nline2\n" gives "line1", "line2" and the empty string
    (the comment in [Updater::UiPrint]). *)
Fixpoint Split (s : string) (delimiters : string) : list string :=
  match s with
  | EmptyString => [EmptyString]
  | String c rest =>
      if is_delimiter c delimiters then EmptyString :: Split rest delimiters
      else
        match Split rest delimiters with
        | piece :: pieces => String c piece :: pieces
        | [] => [String c EmptyString]
        end
  end.

End android_base.

(** [std::string::empty]. *)
Definition empty (s : string) : bool :=
  match s with
  | EmptyString => true
  | String _ _ => false
  end.

(** [s[0]]: the first byte, and the terminating byte 0 when [s] is empty. *)
Definition at0 (s : string) : ascii :=
  match s with
  | EmptyString => "000"%char
  | String c _ => c
  end.

(** A string whose first character is [c]. *)
Definition starts_with_char (c : ascii) (s : string) : bool :=
  match s with
  | EmptyString => false
  | String c0 _ => Ascii.eqb c0 c
  end.

(** ** Events and the monad that records them *)

Inductive LogSeverity : Type := INFO | ERROR.

Inductive event : Type :=
| EFprintf (text : string)               (* one [fprintf(cmd_pipe_.get(), ...)] *)
| EFflush                                (* [fflush(cmd_pipe_.get())] *)
| ELog (severity : LogSeverity) (text : string)   (* one [LOG(severity) << ...] *)
| EParseString (script : string)         (* the call of [ParseString] *)
| ENewState (retry : bool)               (* a [State] is constructed *)
| EEvaluate.                             (* the call of [Evaluate] *)

(** A computation returns a value and the events it produced. *)
Definition M (A : Type) : Type := (A * list event)%type.

Definition ret {A : Type} (a : A) : M A := (a, []).

Definition bind {A B : Type} (m : M A) (f : A -> M B) : M B :=
  let '(a, t1) := m in
  let '(b, t2) := f a in
  (b, (t1 ++ t2)%list).

Definition emit (e : event) : M unit := (tt, [e]).

Definition value_of {A : Type} (m : M A) : A := fst m.
Definition events_of {A : Type} (m : M A) : list event := snd m.

Declare Scope updater_scope.
Delimit Scope updater_scope with updater.
Notation "x <- c ;; k" := (bind c (fun x => k))
  (at level 61, c at next level, right associativity) : updater_scope.
Notation "c ;; k" := (bind c (fun _ => k))
  (at level 61, right associativity) : updater_scope.
Local Open Scope updater_scope.

(** [for (const auto& x : xs) body], with the variables the body changes
    passed along as [s]. *)
Fixpoint for_each {A S : Type} (xs : list A) (body : A -> S -> M S) (s : S) : M S :=
  match xs with
  | [] => ret s
  | x :: xs' => s' <- body x s ;; for_each xs' body s'
  end.

Definition fprintf (fmt : string) (args : list libc.printf_arg) : M unit :=
  emit (EFprintf (libc.sprintf fmt args)).

Definition fflush : M unit := emit EFflush.

Definition LOG (severity : LogSeverity) (text : string) : M unit :=
  emit (ELog severity text).

(** The chunks written to the command pipe, one per [fprintf], in order. *)
Fixpoint pipe_writes (t : list event) : list string :=
  match t with
  | [] => []
  | EFprintf text :: t' => text :: pipe_writes t'
  | _ :: t' => pipe_writes t'
  end.

(** The lines sent to the log. *)
Fixpoint log_lines (t : list event) : list (LogSeverity * string) :=
  match t with
  | [] => []
  | ELog sev text :: t' => (sev, text) :: log_lines t'
  | _ :: t' => log_lines t'
  end.

(** ** The updater *)

(** The enumerators of [ErrorCode] and [CauseCode] that the updater names.
    The header that declares them is not part of updater.cpp, so their values
    are parameters of everything below. *)
Record ErrorCodes : Type := {
  kNoError : Z;
  kScriptExecutionFailure : Z;
  kNoCause : Z;
  kPatchApplicationFailure : Z;
  kEioFailure : Z
}.

(** Modelled from the spec: the header with the enumerations is missing; the
    spec gives 0 to both "none" values ([errorCode: int (0 = none)],
    [causeCode: int (0 = none)]) and no number to the other enumerators,
    which get distinct sample values here. Used for concrete runs only. *)
Definition spec_codes : ErrorCodes := {|
  kNoError := 0;
  kScriptExecutionFailure := 25;
  kNoCause := 0;
  kPatchApplicationFailure := 115;
  kEioFailure := 117
|}.

(** Modelled from the spec: edify's [State] is declared outside updater.cpp;
    these are the fields of the spec's ExecutionState that the updater reads
    or writes ([resultString] is the updater's own [result_]). *)
Record State : Type := {
  is_retry : bool;
  errmsg : string;
  error_code : Z;
  cause_code : Z
}.

Definition set_is_retry (b : bool) (st : State) : State :=
  {| is_retry := b; errmsg := errmsg st;
     error_code := error_code st; cause_code := cause_code st |}.

Definition set_error_code (v : Z) (st : State) : State :=
  {| is_retry := is_retry st; errmsg := errmsg st;
     error_code := v; cause_code := cause_code st |}.

(** The members of [Updater] that [RunUpdate] reads or writes; the command
    pipe is the [EFprintf] and [EFflush] events. *)
Record Updater : Type := {
  updater_script_ : string;
  is_retry_ : bool;
  result_ : string
}.

Definition set_result_ (r : string) (u : Updater) : Updater :=
  {| updater_script_ := updater_script_ u; is_retry_ := is_retry_ u; result_ := r |}.

Import libc android_base.

Section UpdaterCode.

Variable codes : ErrorCodes.
Variable out_of_range : Z -> Z.

(** [Updater::WriteToCommandPipe]. *)
Definition WriteToCommandPipe (message : string) (flush : bool) : M unit :=
  fprintf ("%s" ++ LF) [ArgS (c_str message)] ;;
  if flush then fflush else ret tt.

(** [Updater::UiPrint]. *)
Definition UiPrint (message : string) : M unit :=
  let lines := Split message LF in
  for_each lines (fun line _ =>
    if negb (empty line)
    then fprintf ("ui_print %s" ++ LF) [ArgS (c_str line)]
    else ret tt) tt ;;
  LOG INFO message.

(** [sscanf(line.c_str(), "E%d: ", &state->error_code)]: the value returned
    and the state after the call. *)
Definition sscanf_error_code (line : string) (state : State) : Z * State :=
  match sscanf_E_d out_of_range (c_str line) with
  | (n, Some v) => (n, set_error_code v state)
  | (n, None) => (n, state)
  end.

(** The body of the loop over the lines of the abort message. *)
Definition report_line (line : string) (state : State) : M State :=
  state <-
    (if (negb (empty line) && Ascii.eqb (at0 line) "E")%bool then
       let '(n, state') := sscanf_error_code line state in
       if negb (n =? 1) then
         LOG ERROR ("Failed to parse error code: [" ++ line ++ "]") ;;
         ret state'
       else ret state'
     else ret state) ;;
  fprintf ("ui_print %s" ++ LF) [ArgS (c_str line)] ;;
  ret state.

(** [Updater::ParseAndReportErrorCode]; the argument is [*state] on entry
    (the pointer is not null, as the [CHECK] demands), the result is [*state]
    on return. *)
Definition ParseAndReportErrorCode (state : State) : M State :=
  state <-
    (if empty (errmsg state) then
       LOG ERROR "script aborted (no error message)" ;;
       fprintf ("ui_print script aborted (no error message)" ++ LF) [] ;;
       ret state
     else
       LOG ERROR ("script aborted: " ++ errmsg state) ;;
       let lines := Split (errmsg state) LF in
       for_each lines report_line state) ;;
  let state :=
    if error_code state =? kNoError codes
    then set_error_code (kScriptExecutionFailure codes) state
    else state in
  fprintf ("log error: %d" ++ LF) [ArgD (error_code state)] ;;
  (if negb (cause_code state =? kNoCause codes) then
     fprintf ("log cause: %d" ++ LF) [ArgD (cause_code state)] ;;
     if cause_code state =? kPatchApplicationFailure codes then
       LOG INFO "Patch application failed, retry update." ;;
       fprintf ("retry_update" ++ LF) []
     else if cause_code state =? kEioFailure codes then
       LOG INFO "Update failed due to EIO, retry update." ;;
       fprintf ("retry_update" ++ LF) []
     else ret tt
   else ret tt) ;;
  ret state.

(** The script engine: the type of a parsed script, [ParseString] (the value
    returned, the root and the error count) and [Evaluate] (the status, the
    result string and the state it leaves). What the engine itself writes
    while it runs is not recorded. *)
Variable Expr : Type.
Variable ParseString : string -> Z * Expr * Z.
Variable Evaluate : State -> Expr -> bool * string * State.

(** Modelled from the spec: the constructor of [State] is outside
    updater.cpp; a fresh state has no message, no error and no cause. *)
Definition new_State : State :=
  {| is_retry := false; errmsg := EmptyString;
     error_code := kNoError codes; cause_code := kNoCause codes |}.

(** [Updater::RunUpdate]: the value returned and the updater afterwards. *)
Definition RunUpdate (self : Updater) : M (bool * Updater) :=
  emit (EParseString (updater_script_ self)) ;;
  let '(error, root, error_count) := ParseString (updater_script_ self) in
  if (negb (error =? 0) || (error_count >? 0))%bool then
    LOG ERROR (string_of_int error_count ++ " parse errors") ;;
    ret (false, self)
  else
    emit (ENewState (is_retry_ self)) ;;
    let state := set_is_retry (is_retry_ self) new_State in
    emit EEvaluate ;;
    let '(status, result, state) := Evaluate state root in
    let self := set_result_ result self in
    if status then
      fprintf ("ui_print script succeeded: result was [%s]" ++ LF)
              [ArgS (c_str (result_ self))] ;;
      (if (empty (result_ self) && negb (cause_code state =? kNoCause codes))%bool
       then fprintf ("log cause: %d" ++ LF) [ArgD (cause_code state)]
       else ret tt) ;;
      ret (true, self)
    else
      ParseAndReportErrorCode state ;;
      ret (false, self).

End UpdaterCode.

(** ** The lines of the protocol *)

Definition ui_print_line (text : string) : string :=
  sprintf ("ui_print %s" ++ LF) [ArgS (c_str text)].

Definition generic_abort_line : string :=
  "ui_print script aborted (no error message)" ++ LF.

Definition log_error_line (code : Z) : string :=
  sprintf ("log error: %d" ++ LF) [ArgD code].

Definition log_cause_line (cause : Z) : string :=
  sprintf ("log cause: %d" ++ LF) [ArgD cause].

Definition retry_update_line : string := "retry_update" ++ LF.

Definition success_line (result : string) : string :=
  sprintf ("ui_print script succeeded: result was [%s]" ++ LF) [ArgS (c_str result)].

(** [starts_with p s]: the string [s] begins with [p]. *)
Fixpoint starts_with (p s : string) : bool :=
  match p with
  | EmptyString => true
  | String a p' =>
      match s with
      | EmptyString => false
      | String b s' => (Ascii.eqb a b && starts_with p' s')%bool
      end
  end.

(** The chunks of a given kind among those written to the pipe. *)
Definition is_ui_print (chunk : string) : bool := starts_with "ui_print " chunk.
Definition is_log_error (chunk : string) : bool := starts_with "log error: " chunk.
Definition is_log_cause (chunk : string) : bool := starts_with "log cause: " chunk.

Definition ui_print_lines (t : list event) : list string :=
  filter is_ui_print (pipe_writes t).
Definition log_error_lines (t : list event) : list string :=
  filter is_log_error (pipe_writes t).

(** A string without the byte 0. *)
Fixpoint nul_free (s : string) : bool :=
  match s with
  | EmptyString => true
  | String c rest => (negb (Ascii.eqb c NUL) && nul_free rest)%bool
  end.

(** A string without a newline. *)
Fixpoint newline_free (s : string) : bool :=
  match s with
  | EmptyString => true
  | String c rest => (negb (Ascii.eqb c nl) && newline_free rest)%bool
  end.

(** A chunk that is one line: a newline at its end and nowhere else. *)
Fixpoint single_line (s : string) : bool :=
  match s with
  | EmptyString => false
  | String c EmptyString => Ascii.eqb c nl
  | String c rest => (negb (Ascii.eqb c nl) && single_line rest)%bool
  end.

(** ** The marker of the spec *)

Fixpoint all_digits (ds : string) : bool :=
  match ds with
  | EmptyString => true
  | String c rest => (isdigit c && all_digits rest)%bool
  end.

(** The pattern [E<digits>:] in the spec's words: the character E, then one
    or more decimal digits, then a colon; [marker line v] says that [line]
    matches it and that its digits denote [v]. *)
Inductive marker : string -> Z -> Prop :=
| marker_intro (ds rest : string) :
    ds <> EmptyString ->
    all_digits ds = true ->
    marker ("E" ++ ds ++ ":" ++ rest) (digits_value 0 ds).

(** The same pattern as a function, for concrete lines. *)
Definition marker_code (line : string) : option Z :=
  match line with
  | String c rest =>
      if Ascii.eqb c "E" then
        match take_digits rest, drop_digits rest with
        | String _ _ as ds, String k _ =>
            if Ascii.eqb k ":" then Some (digits_value 0 ds) else None
        | _, _ => None
        end
      else None
  | EmptyString => None
  end.

(** A line whose first character is E and from which [sscanf] reads a
    number: E, optional white space, an optional sign, decimal digits. *)
Definition scans_number (line : string) : bool :=
  (starts_with_char "E" line
   && (fst (sscanf_E_d (fun _ => 0) (c_str line)) =? 1))%bool.

(** [android::base::Trim] in the spec's words: leading and trailing white
    space removed. *)
Definition Trim (s : string) : string :=
  let l := list_ascii_of_string (skip_space s) in
  let r := list_ascii_of_string (skip_space (string_of_list_ascii (rev l))) in
  string_of_list_ascii (rev r).

(** ** What the failure report computes *)

(** The error code after a line of the abort message. *)
Definition scan_line (out_of_range : Z -> Z) (line : string) (e : Z) : Z :=
  if starts_with_char "E" line then
    match snd (sscanf_E_d out_of_range (c_str line)) with
    | Some v => v
    | None => e
    end
  else e.

Definition scan_lines (out_of_range : Z -> Z) (lines : list string) (e : Z) : Z :=
  fold_left (fun e line => scan_line out_of_range line e) lines e.

(** The warning a line of the abort message produces, if any. *)
Definition line_warning (line : string) : list (LogSeverity * string) :=
  if (starts_with_char "E" line && negb (scans_number line))%bool
  then [(ERROR, "Failed to parse error code: [" ++ line ++ "]")]
  else [].

Definition abort_lines (st : State) : list string :=
  if empty (errmsg st) then [generic_abort_line]
  else map ui_print_line (Split (errmsg st) LF).

Definition scanned_code (out_of_range : Z -> Z) (st : State) : Z :=
  if empty (errmsg st) then error_code st
  else scan_lines out_of_range (Split (errmsg st) LF) (error_code st).

Definition final_code (codes : ErrorCodes) (out_of_range : Z -> Z) (st : State) : Z :=
  let e := scanned_code out_of_range st in
  if e =? kNoError codes then kScriptExecutionFailure codes else e.

Definition is_retry_cause (codes : ErrorCodes) (c : Z) : bool :=
  ((c =? kPatchApplicationFailure codes) || (c =? kEioFailure codes))%bool.

Definition cause_lines (codes : ErrorCodes) (c : Z) : list string :=
  if negb (c =? kNoCause codes) then
    log_cause_line c :: (if is_retry_cause codes c then [retry_update_line] else [])
  else [].

(** ** [Init] and the destructor *)

(** A pointer is an address, and the null pointer is the address 0. *)
Definition nullptr : Z := 0.

Section PackageCode.

(** The types of the package library that the updater only passes along: the
    memory mapping of the package file and an entry of the archive. *)
Variable MemMapping : Type.
Variable ZipEntry : Type.

(** The calls [Init] and the destructor make outside the updater. *)
Inductive call : Type :=
| Cfdopen (fd : Z)
| Csetlinebuf (stream : Z)
| CMapFile (path : string)
| COpenArchiveFromMemory (mapping : MemMapping) (name : string)
| CFindEntry (handle : Z) (name : string)
| CExtractToMemory (handle : Z) (entry : ZipEntry) (size : Z)
| CErrorCodeString (error : Z)
| CCloseArchive (handle : Z).

(** One step of [Init]: an event of the updater or a call. *)
Inductive step : Type :=
| Ev (e : event)
| Call (c : call).

Definition W (A : Type) : Type := (A * list step)%type.

Definition retW {A : Type} (a : A) : W A := (a, []).

Definition bindW {A B : Type} (m : W A) (f : A -> W B) : W B :=
  let '(a, t1) := m in
  let '(b, t2) := f a in
  (b, (t1 ++ t2)%list).

Definition callW (c : call) : W unit := (tt, [Call c]).

(** A computation of the updater, run among the steps. *)
Definition liftW {A : Type} (m : M A) : W A := (fst m, map Ev (snd m)).

Fixpoint events_in (t : list step) : list event :=
  match t with
  | [] => []
  | Ev e :: t' => e :: events_in t'
  | Call _ :: t' => events_in t'
  end.

Fixpoint calls_in (t : list step) : list call :=
  match t with
  | [] => []
  | Ev _ :: t' => calls_in t'
  | Call c :: t' => c :: calls_in t'
  end.

(** The updater with the members [Init] writes besides those of [Updater]:
    the command pipe (a [FILE*]), the mapping of the package, the handle of
    the archive and the handle of the security labels (pointers). *)
Record UpdaterObject : Type := {
  members : Updater;
  cmd_pipe_ : Z;
  mapped_package_ : MemMapping;
  package_handle_ : Z;
  sehandle_ : Z
}.

Definition set_cmd_pipe_ (p : Z) (u : UpdaterObject) : UpdaterObject :=
  {| members := members u; cmd_pipe_ := p; mapped_package_ := mapped_package_ u;
     package_handle_ := package_handle_ u; sehandle_ := sehandle_ u |}.

Definition set_mapped_package_ (m : MemMapping) (u : UpdaterObject) : UpdaterObject :=
  {| members := members u; cmd_pipe_ := cmd_pipe_ u; mapped_package_ := m;
     package_handle_ := package_handle_ u; sehandle_ := sehandle_ u |}.

Definition set_package_handle_ (h : Z) (u : UpdaterObject) : UpdaterObject :=
  {| members := members u; cmd_pipe_ := cmd_pipe_ u; mapped_package_ := mapped_package_ u;
     package_handle_ := h; sehandle_ := sehandle_ u |}.

Definition set_sehandle_ (h : Z) (u : UpdaterObject) : UpdaterObject :=
  {| members := members u; cmd_pipe_ := cmd_pipe_ u; mapped_package_ := mapped_package_ u;
     package_handle_ := package_handle_ u; sehandle_ := h |}.

Definition set_is_retry_ (b : bool) (u : UpdaterObject) : UpdaterObject :=
  {| members := {| updater_script_ := updater_script_ (members u);
                   is_retry_ := b;
                   result_ := result_ (members u) |};
     cmd_pipe_ := cmd_pipe_ u; mapped_package_ := mapped_package_ u;
     package_handle_ := package_handle_ u; sehandle_ := sehandle_ u |}.

(** What [Init] calls, each as a function of its arguments:
    - [fdopen(fd, "wb")]: the stream, or the null pointer;
    - [MemMapping::MapFile]: whether it succeeded, and the mapping after it;
    - [OpenArchiveFromMemory]: the error code, and the handle it leaves in
      [*handle] (it is given the handle that was there);
    - [FindEntry]: the error code and the entry it leaves in [*data];
    - [ExtractToMemory]: the error code and the bytes it leaves in the buffer;
    - [ErrorCodeString], the field [uncompressed_length] of an entry, and the
      macro [SCRIPT_NAME]. *)
Variable fdopen : Z -> Z.
Variable MapFile : MemMapping -> string -> bool * MemMapping.
Variable OpenArchiveFromMemory : MemMapping -> string -> Z -> Z * Z.
Variable FindEntry : Z -> string -> Z * ZipEntry.
Variable ExtractToMemory : Z -> ZipEntry -> Z -> Z * string.
Variable ErrorCodeString : Z -> string.
Variable uncompressed_length : ZipEntry -> Z.
Variable SCRIPT_NAME : string.

Declare Scope package_scope.
Notation "x <- c ;; k" := (bindW c (fun x => k))
  (at level 61, c at next level, right associativity) : package_scope.
Notation "c ;; k" := (bindW c (fun _ => k))
  (at level 61, right associativity) : package_scope.
Local Open Scope package_scope.

(** [Updater::~Updater]: the body of the destructor. *)
Definition Updater_dtor (self : UpdaterObject) : W unit :=
  if negb (package_handle_ self =? nullptr)
  then callW (CCloseArchive (package_handle_ self))
  else retW tt.

(** [Updater::Init]: the value returned and the updater afterwards. What
    [reset] does with the stream [cmd_pipe_] held before is not recorded. The
    script is extracted into the local [script]. [ErrorCodeString] is called
    while the log line that holds its text is put together, so its call comes
    before that line. *)
Definition Init (fd : Z) (package_filename : string) (is_retry : bool)
    (sehandle : Z) (self : UpdaterObject) : W (bool * UpdaterObject) :=
  callW (Cfdopen fd) ;;
  let self := set_cmd_pipe_ (fdopen fd) self in
  if cmd_pipe_ self =? nullptr then
    liftW (LOG ERROR "Failed to open the command pipe") ;;
    retW (false, self)
  else
    callW (Csetlinebuf (cmd_pipe_ self)) ;;
    callW (CMapFile package_filename) ;;
    let '(mapped, mapping) := MapFile (mapped_package_ self) package_filename in
    let self := set_mapped_package_ mapping self in
    if negb mapped then
      liftW (LOG ERROR ("failed to map package " ++ package_filename)) ;;
      retW (false, self)
    else
      callW (COpenArchiveFromMemory (mapped_package_ self) (c_str package_filename)) ;;
      let '(open_err, handle) :=
        OpenArchiveFromMemory (mapped_package_ self) (c_str package_filename)
                              (package_handle_ self) in
      let self := set_package_handle_ handle self in
      if negb (open_err =? 0) then
        callW (CErrorCodeString open_err) ;;
        liftW (LOG ERROR ("failed to open package " ++ package_filename ++ ": "
                          ++ ErrorCodeString open_err)) ;;
        retW (false, self)
      else
        let script_name := SCRIPT_NAME in
        callW (CFindEntry (package_handle_ self) script_name) ;;
        let '(find_err, script_entry) := FindEntry (package_handle_ self) script_name in
        if negb (find_err =? 0) then
          callW (CErrorCodeString find_err) ;;
          liftW (LOG ERROR ("failed to find " ++ SCRIPT_NAME ++ " in " ++ package_filename
                            ++ ": " ++ ErrorCodeString find_err)) ;;
          retW (false, self)
        else
          callW (CExtractToMemory (package_handle_ self) script_entry
                                  (uncompressed_length script_entry)) ;;
          let '(extract_err, script) :=
            ExtractToMemory (package_handle_ self) script_entry
                            (uncompressed_length script_entry) in
          if negb (extract_err =? 0) then
            callW (CErrorCodeString extract_err) ;;
            liftW (LOG ERROR ("failed to read script from package: "
                              ++ ErrorCodeString extract_err)) ;;
            retW (false, self)
          else
            let self := set_is_retry_ is_retry self in
            let self := set_sehandle_ sehandle self in
            (if sehandle_ self =? nullptr
             then liftW (fprintf ("ui_print Warning: No file_contexts" ++ LF) [])
             else retW tt) ;;
            retW (true, self).


End PackageCode.

Arguments Cfdopen {MemMapping ZipEntry}.
Arguments Csetlinebuf {MemMapping ZipEntry}.
Arguments CMapFile {MemMapping ZipEntry}.
Arguments COpenArchiveFromMemory {MemMapping ZipEntry}.
Arguments CFindEntry {MemMapping ZipEntry}.
Arguments CExtractToMemory {MemMapping ZipEntry}.
Arguments CErrorCodeString {MemMapping ZipEntry}.
Arguments CCloseArchive {MemMapping ZipEntry}.
Arguments Ev {MemMapping ZipEntry}.
Arguments Call {MemMapping ZipEntry}.
Arguments retW {MemMapping ZipEntry A}.
Arguments bindW {MemMapping ZipEntry A B}.
Arguments callW {MemMapping ZipEntry}.
Arguments liftW {MemMapping ZipEntry A}.
Arguments events_in {MemMapping ZipEntry}.
Arguments calls_in {MemMapping ZipEntry}.
Arguments members {MemMapping}.
Arguments cmd_pipe_ {MemMapping}.
Arguments mapped_package_ {MemMapping}.
Arguments package_handle_ {MemMapping}.
Arguments sehandle_ {MemMapping}.
Arguments Updater_dtor {MemMapping ZipEntry}.

(** The text of a [ui_print] chunk: what is between "ui_print " and the
    newline at its end. *)
Fixpoint drop_last_newline (s : string) : option string :=
  match s with
  | EmptyString => None
  | String c rest =>
      match rest with
      | EmptyString => if Ascii.eqb c nl then Some EmptyString else None
      | _ =>
          match drop_last_newline rest with
          | Some r => Some (String c r)
          | None => None
          end
      end
  end.

Fixpoint strip_prefix (p s : string) : option string :=
  match p with
  | EmptyString => Some s
  | String a p' =>
      match s with
      | EmptyString => None
      | String b s' => if Ascii.eqb a b then strip_prefix p' s' else None
      end
  end.

Definition ui_print_text (chunk : string) : option string :=
  match strip_prefix "ui_print " chunk with
  | Some rest => drop_last_newline rest
  | None => None
  end.

(** The pieces put together again, with a newline between two of them. *)
Fixpoint join_lines (pieces : list string) : string :=
  match pieces with
  | [] => EmptyString
  | [piece] => piece
  | piece :: rest => piece ++ LF ++ join_lines rest
  end.

(** A string made of newlines only. *)
Fixpoint only_newlines (s : string) : bool :=
  match s with
  | EmptyString => true
  | String c rest => (Ascii.eqb c nl && only_newlines rest)%bool
  end.

(** ** Sample inputs *)

(** A state as the engine leaves it: a message, an error code, a cause. *)
Definition state_with (message : string) (error cause : Z) : State :=
  {| is_retry := false; errmsg := message; error_code := error; cause_code := cause |}.

(** The state handed to [Evaluate]. *)
Definition fresh_state (codes : ErrorCodes) (self : Updater) : State :=
  set_is_retry (is_retry_ self) (new_State codes).

(** A sample engine: the parser answers with a fixed value and count, the
    evaluation with a fixed status, result and state. *)
Definition parse_with (error error_count : Z) : string -> Z * unit * Z :=
  fun _ => (error, tt, error_count).

Definition evaluate_to (status : bool) (result : string) (st : State)
  : State -> unit -> bool * string * State :=
  fun _ _ => (status, result, st).

Definition sample_updater : Updater :=
  {| updater_script_ := "assert(true);"; is_retry_ := false; result_ := EmptyString |}.

(** A sample package library: mappings are [unit], an entry is its length;
    [fdopen] gives the stream [fd + 100], the archive opens with the handle 7
    and holds the script "ui_print(1);" under any name; [find_error] is what
    [FindEntry] returns. *)
Definition sample_object : UpdaterObject unit :=
  {| members := sample_updater; cmd_pipe_ := nullptr; mapped_package_ := tt;
     package_handle_ := nullptr; sehandle_ := nullptr |}.

Definition sample_fdopen (fd : Z) : Z := fd + 100.
Definition sample_MapFile (m : unit) (path : string) : bool * unit := (true, tt).
Definition sample_OpenArchiveFromMemory (m : unit) (name : string) (old : Z) : Z * Z :=
  (0, 7).
Definition sample_FindEntry (find_error : Z) (handle : Z) (name : string) : Z * Z :=
  (find_error, 12).
Definition sample_ExtractToMemory (handle : Z) (entry : Z) (size : Z) : Z * string :=
  (0, "ui_print(1);").
Definition sample_ErrorCodeString (err : Z) : string := "error " ++ string_of_int err.

Definition sample_Init (find_error : Z) (sehandle : Z)
  : W unit Z (bool * UpdaterObject unit) :=
  Init unit Z sample_fdopen sample_MapFile sample_OpenArchiveFromMemory
       (sample_FindEntry find_error) sample_ExtractToMemory sample_ErrorCodeString
       (fun entry => entry) "META-INF/com/google/android/updater-script"
       3 "/cache/update.zip" true sehandle sample_object.

(** ** Lemmas on the monad and the event lists *)

Lemma value_of_bind {A B : Type} (m : M A) (f : A -> M B) :
  value_of (bind m f) = value_of (f (value_of m)).
Proof.
  destruct m as [a t1]; unfold bind, value_of; simpl.
  destruct (f a); reflexivity.
Qed.

Lemma events_of_bind {A B : Type} (m : M A) (f : A -> M B) :
  events_of (bind m f) = (events_of m ++ events_of (f (value_of m)))%list.
Proof.
  destruct m as [a t1]; unfold bind, events_of, value_of; simpl.
  destruct (f a); reflexivity.
Qed.

Lemma pipe_writes_app (t1 t2 : list event) :
  pipe_writes (t1 ++ t2) = (pipe_writes t1 ++ pipe_writes t2)%list.
Proof.
  induction t1 as [|e t1 IH]; simpl; [reflexivity|].
  destruct e; simpl; rewrite IH; reflexivity.
Qed.

Lemma log_lines_app (t1 t2 : list event) :
  log_lines (t1 ++ t2) = (log_lines t1 ++ log_lines t2)%list.
Proof.
  induction t1 as [|e t1 IH]; simpl; [reflexivity|].
  destruct e; simpl; rewrite IH; reflexivity.
Qed.

Create Rewrite HintDb trace.
#[local] Hint Rewrite @value_of_bind @events_of_bind pipe_writes_app log_lines_app : trace.

Ltac trace_simpl := repeat (autorewrite with trace; simpl).

(** ** Lemmas on [sscanf] *)

Lemma sscanf_E_d_cases (ovf : Z -> Z) (s : string) :
  (fst (sscanf_E_d ovf s) = 1 /\ exists v, snd (sscanf_E_d ovf s) = Some v)
  \/ (fst (sscanf_E_d ovf s) <> 1 /\ snd (sscanf_E_d ovf s) = None).
Proof.
  unfold sscanf_E_d.
  destruct s as [|c rest]; [right; split; [discriminate | reflexivity]|].
  destruct (Ascii.eqb c "E"); [|right; split; [discriminate | reflexivity]].
  destruct (skip_space rest) as [|d body]; [right; split; [discriminate | reflexivity]|].
  destruct (take_digits _) as [|k ds];
    [right; split; [discriminate | reflexivity]|].
  left; split; [reflexivity | eexists; reflexivity].
Qed.

Lemma sscanf_E_d_returned (ovf1 ovf2 : Z -> Z) (s : string) :
  fst (sscanf_E_d ovf1 s) = fst (sscanf_E_d ovf2 s).
Proof.
  unfold sscanf_E_d.
  destruct s as [|c rest]; [reflexivity|].
  destruct (Ascii.eqb c "E"); [|reflexivity].
  destruct (skip_space rest) as [|d body]; [reflexivity|].
  destruct (take_digits _); reflexivity.
Qed.

Lemma scans_number_spec (ovf : Z -> Z) (line : string) :
  scans_number line
  = (starts_with_char "E" line && (fst (sscanf_E_d ovf (c_str line)) =? 1))%bool.
Proof.
  unfold scans_number.
  rewrite (sscanf_E_d_returned (fun _ => 0) ovf); reflexivity.
Qed.

(** ** The loop over the lines of the abort message *)

Lemma empty_starts_with (c : ascii) (line : string) :
  (negb (empty line) && Ascii.eqb (at0 line) c)%bool = starts_with_char c line.
Proof. destruct line; reflexivity. Qed.

Lemma report_line_spec (ovf : Z -> Z) (line : string) (st : State) :
  let r := report_line ovf line st in
  error_code (value_of r) = scan_line ovf line (error_code st)
  /\ cause_code (value_of r) = cause_code st
  /\ errmsg (value_of r) = errmsg st
  /\ is_retry (value_of r) = is_retry st
  /\ pipe_writes (events_of r) = [ui_print_line line]
  /\ log_lines (events_of r) = line_warning line.
Proof.
  unfold report_line, scan_line, line_warning.
  rewrite (scans_number_spec ovf), empty_starts_with.
  destruct (starts_with_char "E" line) eqn:HE; simpl.
  - unfold sscanf_error_code.
    destruct (sscanf_E_d_cases ovf (c_str line)) as [[Hn [v Hv]] | [Hn Hv]];
      destruct (sscanf_E_d ovf (c_str line)) as [n o]; simpl in *; subst o.
    + subst n; trace_simpl. repeat split; reflexivity.
    + apply Z.eqb_neq in Hn; rewrite Hn; trace_simpl. repeat split; reflexivity.
  - trace_simpl. repeat split; reflexivity.
Qed.

Lemma for_each_report_line (ovf : Z -> Z) (lines : list string) (st : State) :
  let r := for_each lines (report_line ovf) st in
  error_code (value_of r) = scan_lines ovf lines (error_code st)
  /\ cause_code (value_of r) = cause_code st
  /\ errmsg (value_of r) = errmsg st
  /\ is_retry (value_of r) = is_retry st
  /\ pipe_writes (events_of r) = map ui_print_line lines
  /\ log_lines (events_of r) = flat_map line_warning lines.
Proof.
  revert st; induction lines as [|line lines IH]; intro st; simpl.
  - repeat split; reflexivity.
  - trace_simpl.
    destruct (report_line_spec ovf line st) as (He & Hc & Hm & Hr & Hp & Hl).
    destruct (IH (value_of (report_line ovf line st))) as (He' & Hc' & Hm' & Hr' & Hp' & Hl').
    rewrite He', Hc', Hm', Hr', Hp', Hl', He, Hc, Hm, Hr, Hp, Hl.
    repeat split; reflexivity.
Qed.

(** ** The shape of the failure report *)

Lemma cause_report_writes (codes : ErrorCodes) (c : Z) :
  pipe_writes (events_of
    (if negb (c =? kNoCause codes) then
       fprintf ("log cause: %d" ++ LF) [ArgD c] ;;
       if c =? kPatchApplicationFailure codes then
         LOG INFO "Patch application failed, retry update." ;;
         fprintf ("retry_update" ++ LF) []
       else if c =? kEioFailure codes then
         LOG INFO "Update failed due to EIO, retry update." ;;
         fprintf ("retry_update" ++ LF) []
       else ret tt
     else ret tt))
  = cause_lines codes c.
Proof.
  unfold cause_lines, is_retry_cause.
  destruct (c =? kNoCause codes); simpl; [reflexivity|].
  destruct (c =? kPatchApplicationFailure codes); simpl; [reflexivity|].
  destruct (c =? kEioFailure codes); reflexivity.
Qed.

Lemma report_abort_message (ovf : Z -> Z) (st : State) :
  let r :=
    (if empty (errmsg st) then
       LOG ERROR "script aborted (no error message)" ;;
       fprintf ("ui_print script aborted (no error message)" ++ LF) [] ;;
       ret st
     else
       LOG ERROR ("script aborted: " ++ errmsg st) ;;
       for_each (Split (errmsg st) LF) (report_line ovf) st) in
  error_code (value_of r) = scanned_code ovf st
  /\ cause_code (value_of r) = cause_code st
  /\ pipe_writes (events_of r) = abort_lines st.
Proof.
  unfold scanned_code, abort_lines.
  destruct (empty (errmsg st)).
  - repeat split; reflexivity.
  - destruct (for_each_report_line ovf (Split (errmsg st) LF) st)
      as (He & Hc & _ & _ & Hp & _).
    rewrite value_of_bind, events_of_bind, pipe_writes_app, He, Hc, Hp.
    repeat split; reflexivity.
Qed.

(** The state and the pipe after [ParseAndReportErrorCode]: the lines of the
    message, the error line with the final code, the lines of the cause. *)
Lemma report_shape (codes : ErrorCodes) (ovf : Z -> Z) (st : State) :
  let r := ParseAndReportErrorCode codes ovf st in
  error_code (value_of r) = final_code codes ovf st
  /\ cause_code (value_of r) = cause_code st
  /\ pipe_writes (events_of r)
     = (abort_lines st
        ++ log_error_line (final_code codes ovf st)
        :: cause_lines codes (cause_code st))%list.
Proof.
  unfold ParseAndReportErrorCode, final_code.
  destruct (report_abort_message ovf st) as (He & Hc & Hp).
  set (m := if empty (errmsg st) then _ else _) in *.
  rewrite value_of_bind, events_of_bind, pipe_writes_app, Hp.
  set (st1 := value_of m) in *.
  assert (Hc1 : cause_code
            (if error_code st1 =? kNoError codes
             then set_error_code (kScriptExecutionFailure codes) st1 else st1)
          = cause_code st).
  { destruct (error_code st1 =? kNoError codes); simpl; exact Hc. }
  assert (He1 : error_code
            (if error_code st1 =? kNoError codes
             then set_error_code (kScriptExecutionFailure codes) st1 else st1)
          = if scanned_code ovf st =? kNoError codes
            then kScriptExecutionFailure codes else scanned_code ovf st).
  { rewrite <- He. destruct (error_code st1 =? kNoError codes); reflexivity. }
  cbv zeta.
  set (st2 := if error_code st1 =? kNoError codes then _ else st1) in *.
  rewrite !value_of_bind, !events_of_bind, !pipe_writes_app.
  rewrite cause_report_writes, Hc1, <- He1.
  split; [reflexivity | split; [exact Hc1 |]].
  change (pipe_writes (events_of (ret st2))) with (@nil string).
  rewrite app_nil_r. reflexivity.
Qed.

(** ** The kinds of lines *)

Lemma ui_print_line_eq (text : string) :
  ui_print_line text = "ui_print " ++ c_str text ++ LF.
Proof.
  unfold ui_print_line; simpl.
  assert (H : forall s, c_str (c_str s) = c_str s).
  { induction s as [|c s IH]; simpl; [reflexivity|].
    destruct (Ascii.eqb c NUL) eqn:E; simpl; [reflexivity|].
    rewrite E, IH; reflexivity. }
  rewrite H; reflexivity.
Qed.

Lemma success_line_eq (result : string) :
  success_line result
  = "ui_print script succeeded: result was [" ++ c_str result ++ "]" ++ LF.
Proof.
  unfold success_line; simpl.
  assert (H : forall s, c_str (c_str s) = c_str s).
  { induction s as [|c s IH]; simpl; [reflexivity|].
    destruct (Ascii.eqb c NUL) eqn:E; simpl; [reflexivity|].
    rewrite E, IH; reflexivity. }
  rewrite H; reflexivity.
Qed.

Lemma log_error_line_eq (v : Z) :
  log_error_line v = "log error: " ++ string_of_int v ++ LF.
Proof. reflexivity. Qed.

Lemma log_cause_line_eq (c : Z) :
  log_cause_line c = "log cause: " ++ string_of_int c ++ LF.
Proof. reflexivity. Qed.

Lemma is_ui_print_ui_print_line (text : string) :
  is_ui_print (ui_print_line text) = true.
Proof. reflexivity. Qed.

Lemma is_ui_print_success_line (result : string) :
  is_ui_print (success_line result) = true.
Proof. reflexivity. Qed.

Lemma is_log_error_ui_print_line (text : string) :
  is_log_error (ui_print_line text) = false.
Proof. reflexivity. Qed.

Lemma is_log_error_log_error_line (v : Z) :
  is_log_error (log_error_line v) = true.
Proof. reflexivity. Qed.

Lemma is_ui_print_log_error_line (v : Z) :
  is_ui_print (log_error_line v) = false.
Proof. reflexivity. Qed.

Lemma is_ui_print_log_cause_line (c : Z) :
  is_ui_print (log_cause_line c) = false.
Proof. reflexivity. Qed.

Lemma is_log_error_log_cause_line (c : Z) :
  is_log_error (log_cause_line c) = false.
Proof. reflexivity. Qed.

Lemma is_log_cause_log_cause_line (c : Z) :
  is_log_cause (log_cause_line c) = true.
Proof. reflexivity. Qed.

Lemma is_log_cause_success_line (result : string) :
  is_log_cause (success_line result) = false.
Proof. reflexivity. Qed.

Lemma abort_lines_ui_print (st : State) :
  Forall (fun chunk => is_ui_print chunk = true) (abort_lines st).
Proof.
  unfold abort_lines. destruct (empty (errmsg st)).
  - constructor; [reflexivity | constructor].
  - apply Forall_forall. intros chunk Hin.
    apply in_map_iff in Hin. destruct Hin as (line & <- & _).
    apply is_ui_print_ui_print_line.
Qed.

Lemma filter_all {A : Type} (p : A -> bool) (l : list A) :
  Forall (fun x => p x = true) l -> filter p l = l.
Proof.
  induction 1 as [|x l Hx _ IH]; simpl; [reflexivity|].
  rewrite Hx, IH; reflexivity.
Qed.

Lemma filter_none {A : Type} (p : A -> bool) (l : list A) :
  Forall (fun x => p x = false) l -> filter p l = [].
Proof.
  induction 1 as [|x l Hx _ IH]; simpl; [reflexivity|].
  rewrite Hx, IH; reflexivity.
Qed.

Lemma cause_lines_not_ui_print (codes : ErrorCodes) (c : Z) :
  Forall (fun chunk => is_ui_print chunk = false) (cause_lines codes c).
Proof.
  unfold cause_lines.
  destruct (negb (c =? kNoCause codes)); [|constructor].
  constructor; [reflexivity|].
  destruct (is_retry_cause codes c); repeat constructor.
Qed.

Lemma cause_lines_not_log_error (codes : ErrorCodes) (c : Z) :
  Forall (fun chunk => is_log_error chunk = false) (cause_lines codes c).
Proof.
  unfold cause_lines.
  destruct (negb (c =? kNoCause codes)); [|constructor].
  constructor; [reflexivity|].
  destruct (is_retry_cause codes c); repeat constructor.
Qed.

Lemma abort_lines_not_log_error (st : State) :
  Forall (fun chunk => is_log_error chunk = false) (abort_lines st).
Proof.
  unfold abort_lines. destruct (empty (errmsg st)).
  - constructor; [reflexivity | constructor].
  - apply Forall_forall. intros chunk Hin.
    apply in_map_iff in Hin. destruct Hin as (line & <- & _).
    apply is_log_error_ui_print_line.
Qed.

(** The [ui_print] lines and the error lines of a failure report. *)
Lemma report_ui_print_lines (codes : ErrorCodes) (ovf : Z -> Z) (st : State) :
  ui_print_lines (events_of (ParseAndReportErrorCode codes ovf st)) = abort_lines st.
Proof.
  unfold ui_print_lines.
  destruct (report_shape codes ovf st) as (_ & _ & ->).
  rewrite filter_app; simpl.
  rewrite (filter_all _ _ (abort_lines_ui_print st)).
  rewrite (filter_none _ _ (cause_lines_not_ui_print codes (cause_code st))).
  apply app_nil_r.
Qed.

Lemma report_log_error_lines (codes : ErrorCodes) (ovf : Z -> Z) (st : State) :
  log_error_lines (events_of (ParseAndReportErrorCode codes ovf st))
  = [log_error_line (final_code codes ovf st)].
Proof.
  unfold log_error_lines.
  destruct (report_shape codes ovf st) as (_ & _ & ->).
  rewrite filter_app; simpl.
  rewrite (filter_none _ _ (abort_lines_not_log_error st)).
  rewrite (filter_none _ _ (cause_lines_not_log_error codes (cause_code st))).
  reflexivity.
Qed.

(** ** The order of the lines of a failure report *)

(** C10. The failure report writes, in this order: the [ui_print] lines of
    the abort message (or the one generic line), the [log error:] line, at
    most one [log cause:] line, at most one [retry_update] line. There is
    exactly one [log error:] line, it carries the error code the state ends
    with, and [retry_update] is written only after a [log cause:] line. *)
Theorem report_lines_in_order (codes : ErrorCodes) (ovf : Z -> Z) (st : State) :
  let r := ParseAndReportErrorCode codes ovf st in
  exists ui cause retry : list string,
    pipe_writes (events_of r)
    = (ui ++ [log_error_line (error_code (value_of r))] ++ cause ++ retry)%list
    /\ ui = abort_lines st
    /\ Forall (fun chunk => is_ui_print chunk = true) ui
    /\ (cause = [] \/ cause = [log_cause_line (cause_code st)])
    /\ (retry = [] \/ retry = [retry_update_line])
    /\ (retry = [retry_update_line] -> cause = [log_cause_line (cause_code st)])
    /\ length (log_error_lines (events_of r)) = 1%nat.
Proof.
  intro r.
  destruct (report_shape codes ovf st) as (He & _ & Hp). fold r in He, Hp.
  exists (abort_lines st).
  exists (if negb (cause_code st =? kNoCause codes)
          then [log_cause_line (cause_code st)] else []).
  exists (if (negb (cause_code st =? kNoCause codes)
              && is_retry_cause codes (cause_code st))%bool
          then [retry_update_line] else []).
  split; [|split; [reflexivity | split; [apply abort_lines_ui_print |]]].
  - rewrite Hp, He. unfold cause_lines.
    destruct (negb (cause_code st =? kNoCause codes)); simpl; [|reflexivity].
    destruct (is_retry_cause codes (cause_code st)); reflexivity.
  - unfold r; rewrite report_log_error_lines.
    destruct (negb (cause_code st =? kNoCause codes)); simpl.
    + destruct (is_retry_cause codes (cause_code st)); repeat split; auto.
    + repeat split; auto. discriminate.
Qed.

(** ** The retry decision *)

Lemma retry_update_line_in_cause_lines (codes : ErrorCodes) (c : Z) :
  In retry_update_line (cause_lines codes c)
  <-> c <> kNoCause codes /\ is_retry_cause codes c = true.
Proof.
  unfold cause_lines.
  destruct (Z.eqb_spec c (kNoCause codes)) as [Heq | Hne]; simpl.
  - split; [intros [] | intros [H _]; contradiction].
  - destruct (is_retry_cause codes c); simpl.
    + split; [intros _; split; [assumption | reflexivity] | intros _; right; left; reflexivity].
    + split; [intros [H | []]; discriminate H | intros [_ H]; discriminate H].
Qed.

(** C2. The failure report writes a [retry_update] line exactly when the
    cause code is the patch-application failure or the EIO failure (two
    enumerators other than "no cause"); the cause code is the one the state
    came with, and the line is written at most once. *)
Theorem retry_update_iff_retry_cause (codes : ErrorCodes) (ovf : Z -> Z) (st : State)
    (Hpatch : kPatchApplicationFailure codes <> kNoCause codes)
    (Heio : kEioFailure codes <> kNoCause codes) :
  let r := ParseAndReportErrorCode codes ovf st in
  cause_code (value_of r) = cause_code st
  /\ (In retry_update_line (pipe_writes (events_of r))
      <-> cause_code st = kPatchApplicationFailure codes
          \/ cause_code st = kEioFailure codes)
  /\ (length (filter (String.eqb retry_update_line) (pipe_writes (events_of r))) <= 1)%nat.
Proof.
  intro r.
  destruct (report_shape codes ovf st) as (_ & Hc & Hp). fold r in Hc, Hp.
  split; [exact Hc|]. rewrite Hp. split.
  - rewrite in_app_iff. simpl. rewrite retry_update_line_in_cause_lines.
    unfold is_retry_cause. rewrite orb_true_iff, !Z.eqb_eq.
    split.
    + intros [Hui | [Herr | [_ H]]]; [| discriminate Herr | exact H].
      pose proof (abort_lines_ui_print st) as Hall.
      rewrite Forall_forall in Hall. apply Hall in Hui. discriminate Hui.
    + intros H. right; right. split; [|exact H].
      destruct H as [H | H]; rewrite H; assumption.
  - rewrite filter_app.
    rewrite (filter_none (String.eqb retry_update_line) (abort_lines st)).
    + unfold cause_lines.
      destruct (negb (cause_code st =? kNoCause codes)); simpl; [|lia].
      destruct (is_retry_cause codes (cause_code st)); simpl; lia.
    + pose proof (abort_lines_ui_print st) as Hall.
      rewrite Forall_forall in Hall |- *. intros chunk Hin.
      apply Hall in Hin. apply String.eqb_neq. intros <-. discriminate Hin.
Qed.

(** At the sample codes, the EIO cause gets its [retry_update] line. *)
Lemma retry_update_iff_retry_cause_witness :
  kPatchApplicationFailure spec_codes <> kNoCause spec_codes
  /\ kEioFailure spec_codes <> kNoCause spec_codes
  /\ In retry_update_line
       (pipe_writes (events_of
          (ParseAndReportErrorCode spec_codes (fun _ => 0)
             (state_with "E30: bad block" 0 117)))).
Proof.
  assert (Hpatch : kPatchApplicationFailure spec_codes <> kNoCause spec_codes)
    by (simpl; lia).
  assert (Heio : kEioFailure spec_codes <> kNoCause spec_codes)
    by (simpl; lia).
  split; [exact Hpatch | split; [exact Heio |]].
  apply (retry_update_iff_retry_cause spec_codes (fun _ => 0)
           (state_with "E30: bad block" 0 117) Hpatch Heio).
  right; reflexivity.
Defined.

(** ** The report of an abort without a message *)

(** C4, as the code has it. The failure report never carries the "no error"
    code on its [log error:] line (the fallback is another enumerator). When
    the abort message is empty, the only [ui_print] line is the generic one,
    and the code reported is the fallback if the state came without an error
    code, and otherwise the code the state came with. *)
Theorem empty_message_report (codes : ErrorCodes) (ovf : Z -> Z) (st : State)
    (Hfallback : kScriptExecutionFailure codes <> kNoError codes) :
  let r := ParseAndReportErrorCode codes ovf st in
  exists code : Z,
    log_error_lines (events_of r) = [log_error_line code]
    /\ code = error_code (value_of r)
    /\ code <> kNoError codes
    /\ (errmsg st = EmptyString ->
        ui_print_lines (events_of r) = [generic_abort_line]
        /\ code = if error_code st =? kNoError codes
                  then kScriptExecutionFailure codes
                  else error_code st).
Proof.
  intro r. exists (final_code codes ovf st).
  destruct (report_shape codes ovf st) as (He & _ & _). fold r in He.
  split; [apply report_log_error_lines|].
  split; [symmetry; exact He|].
  split.
  - unfold final_code.
    destruct (Z.eqb_spec (scanned_code ovf st) (kNoError codes)); assumption.
  - intro Hempty. unfold r. rewrite report_ui_print_lines.
    unfold abort_lines, final_code, scanned_code. rewrite Hempty. simpl.
    split; reflexivity.
Qed.

(** An abort without a message and without an error code, at the sample
    codes: the generic line and the fallback code 25. *)
Lemma empty_message_report_witness :
  kScriptExecutionFailure spec_codes <> kNoError spec_codes
  /\ errmsg (state_with EmptyString 0 0) = EmptyString
  /\ ui_print_lines (events_of
       (ParseAndReportErrorCode spec_codes (fun _ => 0) (state_with EmptyString 0 0)))
     = [generic_abort_line]
  /\ log_error_lines (events_of
       (ParseAndReportErrorCode spec_codes (fun _ => 0) (state_with EmptyString 0 0)))
     = [log_error_line 25].
Proof.
  assert (Hfallback : kScriptExecutionFailure spec_codes <> kNoError spec_codes)
    by (simpl; lia).
  split; [exact Hfallback | split; [reflexivity |]].
  destruct (empty_message_report spec_codes (fun _ => 0) (state_with EmptyString 0 0) Hfallback)
    as (code & Hlog & _ & _ & Hempty).
  destruct (Hempty eq_refl) as (Hui & Hcode).
  split; [exact Hui|].
  rewrite Hlog, Hcode. reflexivity.
Defined.

(** C4 as stated fails: an abort without a message in a state that the
    engine left with error code 30 is reported with 30, not with the fallback
    25; so is the run whose evaluation fails with that state. *)
Lemma empty_message_keeps_engine_code :
  errmsg (state_with EmptyString 30 0) = EmptyString
  /\ log_error_lines (events_of
       (ParseAndReportErrorCode spec_codes (fun _ => 0) (state_with EmptyString 30 0)))
     = ["log error: 30" ++ LF]
  /\ log_error_lines (events_of
       (ParseAndReportErrorCode spec_codes (fun _ => 0) (state_with EmptyString 30 0)))
     <> [log_error_line (kScriptExecutionFailure spec_codes)]
  /\ pipe_writes (events_of
       (RunUpdate spec_codes (fun _ => 0) unit (parse_with 0 0)
          (evaluate_to false EmptyString (state_with EmptyString 30 0)) sample_updater))
     = [generic_abort_line; "log error: 30" ++ LF].
Proof.
  split; [reflexivity | split; [reflexivity | split; [| reflexivity]]].
  vm_compute. discriminate.
Qed.

(** ** The lines of the abort message *)

(** C8, what the code does against the claim. When the abort message is
    not empty, the failure report forwards every piece of it between
    newlines, the empty ones too, as one [ui_print] line each, in order;
    [UiPrint], which splits the same way, skips the empty pieces. *)
Theorem message_lines_all_forwarded (codes : ErrorCodes) (ovf : Z -> Z) (st : State)
    (Hmessage : errmsg st <> EmptyString) :
  let r := ParseAndReportErrorCode codes ovf st in
  ui_print_lines (events_of r)
  = map (fun line => "ui_print " ++ c_str line ++ LF) (Split (errmsg st) LF)
  /\ length (ui_print_lines (events_of r)) = length (Split (errmsg st) LF).
Proof.
  intro r. unfold r. rewrite report_ui_print_lines. unfold abort_lines.
  destruct (errmsg st) as [|c m]; [contradiction Hmessage; reflexivity|].
  cbn [empty].
  rewrite (map_ext _ _ ui_print_line_eq).
  split; [reflexivity | apply length_map].
Qed.

(** The message "a\n" gives two lines: [ui_print a] and an empty [ui_print]. *)
Lemma message_lines_all_forwarded_witness :
  errmsg (state_with ("a" ++ LF) 0 0) <> EmptyString
  /\ ui_print_lines (events_of
       (ParseAndReportErrorCode spec_codes (fun _ => 0) (state_with ("a" ++ LF) 0 0)))
     = ["ui_print a" ++ LF; "ui_print " ++ LF].
Proof.
  assert (Hmessage : errmsg (state_with ("a" ++ LF) 0 0) <> EmptyString)
    by discriminate.
  split; [exact Hmessage|].
  destruct (message_lines_all_forwarded spec_codes (fun _ => 0)
              (state_with ("a" ++ LF) 0 0) Hmessage) as (Hlines & _).
  rewrite Hlines. reflexivity.
Defined.

(** For the message "a\n" the report writes a [ui_print] line for the empty
    piece after the newline as well, so its [ui_print] lines are not those of
    the non-empty pieces alone. *)
Lemma empty_piece_is_forwarded :
  ui_print_lines (events_of
    (ParseAndReportErrorCode spec_codes (fun _ => 0) (state_with ("a" ++ LF) 0 0)))
  <> map ui_print_line
       (filter (fun line => negb (empty line)) (Split ("a" ++ LF) LF)).
Proof. vm_compute. discriminate. Qed.

(** ** The error code embedded in the abort message *)

Lemma isdigit_facts (d : ascii) :
  isdigit d = true ->
  isspace d = false /\ Ascii.eqb d "-" = false /\ Ascii.eqb d "+" = false
  /\ Ascii.eqb d NUL = false /\ 0 <= digit_value d <= 9.
Proof.
  destruct d as [[] [] [] [] [] [] [] []]; vm_compute; intro H;
    try discriminate H; repeat split; discriminate.
Qed.

Lemma c_str_digits (ds tail : string) :
  all_digits ds = true -> c_str (ds ++ tail) = ds ++ c_str tail.
Proof.
  induction ds as [|d ds IH]; simpl; intro H; [reflexivity|].
  apply andb_true_iff in H. destruct H as [Hd Hds].
  destruct (isdigit_facts d Hd) as (_ & _ & _ & -> & _).
  rewrite (IH Hds). reflexivity.
Qed.

Lemma take_digits_until_colon (ds tail : string) :
  all_digits ds = true -> take_digits (ds ++ ":" ++ tail) = ds.
Proof.
  induction ds as [|d ds IH]; simpl; intro H; [reflexivity|].
  apply andb_true_iff in H. destruct H as [Hd Hds].
  rewrite Hd. f_equal. exact (IH Hds).
Qed.

Lemma digits_value_nonneg (ds : string) (acc : Z) :
  all_digits ds = true -> 0 <= acc -> 0 <= digits_value acc ds.
Proof.
  revert acc; induction ds as [|d ds IH]; intros acc H Hacc; [exact Hacc|].
  cbn [all_digits] in H. cbn [digits_value].
  apply andb_true_iff in H. destruct H as [Hd Hds].
  destruct (isdigit_facts d Hd) as (_ & _ & _ & _ & Hv).
  apply IH; [exact Hds | lia].
Qed.

Lemma marker_nonneg (line : string) (v : Z) : marker line v -> 0 <= v.
Proof.
  intros [ds rest _ Hd]. apply digits_value_nonneg; [exact Hd | lia].
Qed.

Lemma marker_starts_with_E (line : string) (v : Z) :
  marker line v -> starts_with_char "E" line = true.
Proof. intros [ds rest _ _]. reflexivity. Qed.

(** A line that matches the marker of the spec is read by [sscanf], which
    stores the number its digits denote. *)
Lemma marker_sscanf (ovf : Z -> Z) (line : string) (v : Z) :
  marker line v -> sscanf_E_d ovf (c_str line) = (1, Some (store_int ovf v)).
Proof.
  intros [ds rest Hne Hd].
  change (c_str ("E" ++ ds ++ ":" ++ rest)) with (String "E" (c_str (ds ++ ":" ++ rest))).
  rewrite (c_str_digits _ _ Hd).
  change (c_str (":" ++ rest)) with (":" ++ c_str rest).
  destruct ds as [|d ds]; [contradiction Hne; reflexivity|].
  pose proof Hd as Hd'. simpl in Hd'.
  apply andb_true_iff in Hd'. destruct Hd' as [Hd0 Hds].
  destruct (isdigit_facts d Hd0) as (Hsp & Hminus & Hplus & _ & _).
  unfold sscanf_E_d.
  change (Ascii.eqb "E" "E") with true. cbv iota.
  change (String d ds ++ ":" ++ c_str rest)
    with (String d (ds ++ ":" ++ c_str rest)).
  cbn [skip_space]. rewrite Hsp, Hminus, Hplus. cbn [orb].
  change (String d (ds ++ ":" ++ c_str rest))
    with (String d ds ++ ":" ++ c_str rest).
  rewrite (take_digits_until_colon _ _ Hd).
  reflexivity.
Qed.

Lemma scan_line_marker (ovf : Z -> Z) (line : string) (v e : Z) :
  marker line v -> v <= INT_MAX -> scan_line ovf line e = v.
Proof.
  intros Hm Hmax. unfold scan_line.
  rewrite (marker_starts_with_E _ _ Hm), (marker_sscanf ovf _ _ Hm). simpl.
  unfold store_int, in_int_range.
  pose proof (marker_nonneg _ _ Hm) as Hpos.
  replace (INT_MIN <=? v) with true
    by (symmetry; apply Z.leb_le; unfold INT_MIN; lia).
  replace (v <=? INT_MAX) with true by (symmetry; apply Z.leb_le; exact Hmax).
  reflexivity.
Qed.

(** A line from which no number is read leaves the error code as it was. *)
Lemma scan_line_unread (ovf : Z -> Z) (line : string) (e : Z) :
  scans_number line = false -> scan_line ovf line e = e.
Proof.
  rewrite (scans_number_spec ovf). unfold scan_line. intro H.
  destruct (starts_with_char "E" line); [|reflexivity].
  simpl in H. apply Z.eqb_neq in H.
  destruct (sscanf_E_d_cases ovf (c_str line)) as [[Hn _] | [_ ->]];
    [contradiction | reflexivity].
Qed.

Lemma scan_lines_unread (ovf : Z -> Z) (lines : list string) (e : Z) :
  Forall (fun line => scans_number line = false) lines ->
  scan_lines ovf lines e = e.
Proof.
  induction 1 as [|line lines Hline _ IH]; simpl; [reflexivity|].
  rewrite (scan_line_unread ovf line e Hline). exact IH.
Qed.

(** Such a line, when it begins with E, produces the warning and nothing
    else but its own [ui_print] line. *)
Lemma unread_marker_warns (ovf : Z -> Z) (line : string) (st : State) :
  starts_with_char "E" line = true ->
  scans_number line = false ->
  let r := report_line ovf line st in
  error_code (value_of r) = error_code st
  /\ log_lines (events_of r)
     = [(ERROR, "Failed to parse error code: [" ++ line ++ "]")]
  /\ pipe_writes (events_of r) = [ui_print_line line].
Proof.
  intros HE Hscan r.
  destruct (report_line_spec ovf line st) as (He & _ & _ & _ & Hp & Hl).
  fold r in He, Hp, Hl.
  rewrite He, Hl, Hp, (scan_line_unread ovf line _ Hscan).
  unfold line_warning. rewrite HE, Hscan. repeat split; reflexivity.
Qed.

(** C1, as the code has it. When a line of the abort message matches
    [E<digits>:], no later line is an E followed by a number, and the digits
    denote a value of [int] other than the "no error" code, the failure
    report writes one [log error:] line and it carries that value; the lines
    before, matching or not, do not count. *)
Theorem last_marker_code_reported
    (codes : ErrorCodes) (ovf : Z -> Z) (st : State)
    (pre : list string) (line : string) (post : list string) (v : Z)
    (Hsplit : Split (errmsg st) LF = (pre ++ line :: post)%list)
    (Hmarker : marker line v)
    (Hlast : Forall (fun later => scans_number later = false) post)
    (Hint : v <= INT_MAX)
    (Hcode : v <> kNoError codes) :
  let r := ParseAndReportErrorCode codes ovf st in
  log_error_lines (events_of r) = [log_error_line v]
  /\ error_code (value_of r) = v.
Proof.
  intro r.
  destruct (report_shape codes ovf st) as (He & _ & _). fold r in He.
  rewrite He. unfold r. rewrite report_log_error_lines.
  assert (Hfinal : final_code codes ovf st = v).
  { unfold final_code, scanned_code.
    destruct (errmsg st) as [|c m] eqn:Hmsg.
    - exfalso. simpl in Hsplit.
      destruct pre as [|p pre]; simpl in Hsplit.
      + injection Hsplit as <- _. inversion Hmarker.
      + injection Hsplit as _ Hnil. symmetry in Hnil.
        apply app_eq_nil in Hnil. destruct Hnil as [_ Hnil]. discriminate Hnil.
    - cbn [empty]. rewrite Hsplit. unfold scan_lines.
      rewrite fold_left_app. cbn [fold_left].
      rewrite (scan_line_marker ovf line v _ Hmarker Hint).
      fold (scan_lines ovf post v).
      rewrite (scan_lines_unread ovf post v Hlast).
      destruct (Z.eqb_spec v (kNoError codes)); [contradiction | reflexivity]. }
  rewrite Hfinal. split; reflexivity.
Qed.

(** The scenario of the spec after an earlier marker: in
    "E7: early\nE30: wrong device.\nPlease check." the last marker wins and 30
    is reported. *)
Lemma last_marker_code_reported_witness :
  Split (errmsg (state_with
           ("E7: early" ++ LF ++ "E30: wrong device." ++ LF ++ "Please check.") 0 0)) LF
    = (["E7: early"] ++ "E30: wrong device." :: ["Please check."])%list
  /\ marker "E30: wrong device." 30
  /\ Forall (fun later => scans_number later = false) ["Please check."]
  /\ 30 <= INT_MAX
  /\ 30 <> kNoError spec_codes
  /\ log_error_lines (events_of
       (ParseAndReportErrorCode spec_codes (fun _ => 0)
          (state_with
             ("E7: early" ++ LF ++ "E30: wrong device." ++ LF ++ "Please check.") 0 0)))
     = ["log error: 30" ++ LF].
Proof.
  assert (Hsplit :
    Split (errmsg (state_with
             ("E7: early" ++ LF ++ "E30: wrong device." ++ LF ++ "Please check.") 0 0)) LF
    = (["E7: early"] ++ "E30: wrong device." :: ["Please check."])%list) by reflexivity.
  assert (Hmarker : marker "E30: wrong device." 30).
  { apply (marker_intro "30" " wrong device."); [discriminate | reflexivity]. }
  assert (Hlast : Forall (fun later => scans_number later = false) ["Please check."]).
  { constructor; [reflexivity | constructor]. }
  assert (Hint : 30 <= INT_MAX) by (unfold INT_MAX; lia).
  assert (Hcode : 30 <> kNoError spec_codes) by (simpl; lia).
  repeat (split; [assumption|]).
  exact (proj1 (last_marker_code_reported spec_codes (fun _ => 0) _ _ _ _ _
                  Hsplit Hmarker Hlast Hint Hcode)).
Defined.

(** C1 as stated fails: the one line of "E0: x" matches the marker with the
    digits 0, the "no error" code of the sample codes, and the report carries
    the fallback 25, not 0. *)
Lemma marker_of_no_error_reports_fallback :
  Split (errmsg (state_with "E0: x" 0 0)) LF = ["E0: x"]
  /\ marker "E0: x" 0
  /\ log_error_lines (events_of
       (ParseAndReportErrorCode spec_codes (fun _ => 0) (state_with "E0: x" 0 0)))
     = ["log error: 25" ++ LF]
  /\ log_error_lines (events_of
       (ParseAndReportErrorCode spec_codes (fun _ => 0) (state_with "E0: x" 0 0)))
     <> [log_error_line 0].
Proof.
  split; [reflexivity | split].
  - apply (marker_intro "0" " x"); [discriminate | reflexivity].
  - split; [reflexivity | vm_compute; discriminate].
Qed.

(** C3 at the failing input. In "E30: wrong device.\nE5 oops" the second line
    begins with E and has no colon after its digits, so it does not match the
    marker; yet the report carries 5, the code 30 of the first line is lost,
    and no warning is logged. *)
Theorem marker_without_colon_overwrites :
  let st := state_with ("E30: wrong device." ++ LF ++ "E5 oops") 0 0 in
  let r := ParseAndReportErrorCode spec_codes (fun _ => 0) st in
  Split (errmsg st) LF = ["E30: wrong device."; "E5 oops"]
  /\ marker_code "E30: wrong device." = Some 30
  /\ starts_with_char "E" "E5 oops" = true
  /\ marker_code "E5 oops" = None
  /\ pipe_writes (events_of r)
     = ["ui_print E30: wrong device." ++ LF; "ui_print E5 oops" ++ LF;
        "log error: 5" ++ LF]
  /\ log_lines (events_of r)
     = [(ERROR, "script aborted: E30: wrong device." ++ LF ++ "E5 oops")].
Proof. vm_compute. repeat split; reflexivity. Qed.

(** The function [marker_code] decides the relation [marker]. *)
Lemma take_drop_digits (s : string) : take_digits s ++ drop_digits s = s.
Proof.
  induction s as [|c s IH]; simpl; [reflexivity|].
  destruct (isdigit c); simpl; [rewrite IH|]; reflexivity.
Qed.

Lemma all_digits_take_digits (s : string) : all_digits (take_digits s) = true.
Proof.
  induction s as [|c s IH]; simpl; [reflexivity|].
  destruct (isdigit c) eqn:Hc; simpl; [rewrite Hc; exact IH | reflexivity].
Qed.

Lemma drop_digits_until_colon (ds tail : string) :
  all_digits ds = true -> drop_digits (ds ++ ":" ++ tail) = ":" ++ tail.
Proof.
  induction ds as [|d ds IH]; simpl; intro H; [reflexivity|].
  apply andb_true_iff in H. destruct H as [Hd Hds].
  rewrite Hd. exact (IH Hds).
Qed.

Lemma marker_code_iff (line : string) (v : Z) :
  marker_code line = Some v <-> marker line v.
Proof.
  split.
  - unfold marker_code. destruct line as [|c rest]; [discriminate|].
    destruct (Ascii.eqb_spec c "E") as [-> | _]; [|discriminate].
    pose proof (take_drop_digits rest) as Hrest.
    pose proof (all_digits_take_digits rest) as Hall.
    destruct (take_digits rest) as [|d ds] eqn:Htake; [discriminate|].
    destruct (drop_digits rest) as [|k tail]; [discriminate|].
    destruct (Ascii.eqb_spec k ":") as [-> | _]; [|discriminate].
    intro H. injection H as <-. rewrite <- Hrest.
    apply (marker_intro (String d ds) tail); [discriminate | exact Hall].
  - intros [ds rest Hne Hd]. unfold marker_code.
    change ("E" ++ ds ++ ":" ++ rest) with (String "E" (ds ++ ":" ++ rest)).
    change (Ascii.eqb "E" "E") with true. cbv iota.
    rewrite (take_digits_until_colon _ _ Hd), (drop_digits_until_colon _ _ Hd).
    destruct ds as [|d ds]; [contradiction Hne; reflexivity | reflexivity].
Qed.

(** ** [RunUpdate], case by case *)

Section RunUpdateCases.

Variable codes : ErrorCodes.
Variable ovf : Z -> Z.
Variable Expr : Type.
Variable ParseString : string -> Z * Expr * Z.
Variable Evaluate : State -> Expr -> bool * string * State.

Local Abbreviation run := (RunUpdate codes ovf Expr ParseString Evaluate).

Lemma RunUpdate_parse_failure (self : Updater) (error : Z) (root : Expr) (error_count : Z) :
  ParseString (updater_script_ self) = (error, root, error_count) ->
  error <> 0 \/ error_count > 0 ->
  run self
  = ((false, self),
     [EParseString (updater_script_ self);
      ELog ERROR (string_of_int error_count ++ " parse errors")]).
Proof.
  intros Hparse Hbad. unfold run, RunUpdate. rewrite Hparse.
  assert (Hcond : (negb (error =? 0) || (error_count >? 0))%bool = true).
  { apply orb_true_iff. destruct Hbad as [H | H].
    - left. apply negb_true_iff. apply Z.eqb_neq. exact H.
    - right. apply Z.gtb_lt. lia. }
  rewrite Hcond. reflexivity.
Qed.

Lemma RunUpdate_success (self : Updater) (root : Expr) (error_count : Z)
    (result : string) (st : State) :
  ParseString (updater_script_ self) = (0, root, error_count) ->
  error_count <= 0 ->
  Evaluate (fresh_state codes self) root = (true, result, st) ->
  value_of (run self) = (true, set_result_ result self)
  /\ events_of (run self)
     = ([EParseString (updater_script_ self); ENewState (is_retry_ self); EEvaluate;
         EFprintf (success_line result)]
        ++ (if (empty result && negb (cause_code st =? kNoCause codes))%bool
            then [EFprintf (log_cause_line (cause_code st))] else []))%list.
Proof.
  intros Hparse Hok Heval. unfold run, RunUpdate. rewrite Hparse.
  assert (Hcond : (negb (0 =? 0) || (error_count >? 0))%bool = false).
  { simpl. destruct (Z.gtb_spec error_count 0); [lia | reflexivity]. }
  rewrite Hcond. unfold fresh_state in Heval.
  rewrite !value_of_bind, !events_of_bind. cbn [emit value_of events_of fst snd].
  rewrite Heval. cbn [result_ set_result_].
  rewrite !value_of_bind, !events_of_bind.
  cbn [ret fprintf emit value_of events_of fst snd].
  unfold success_line, log_cause_line.
  destruct (empty result && negb (cause_code st =? kNoCause codes))%bool.
  - split; reflexivity.
  - split; reflexivity.
Qed.

Lemma RunUpdate_failure (self : Updater) (root : Expr) (error_count : Z)
    (result : string) (st : State) :
  ParseString (updater_script_ self) = (0, root, error_count) ->
  error_count <= 0 ->
  Evaluate (fresh_state codes self) root = (false, result, st) ->
  value_of (run self) = (false, set_result_ result self)
  /\ events_of (run self)
     = ([EParseString (updater_script_ self); ENewState (is_retry_ self); EEvaluate]
        ++ events_of (ParseAndReportErrorCode codes ovf st))%list.
Proof.
  intros Hparse Hok Heval. unfold run, RunUpdate. rewrite Hparse.
  assert (Hcond : (negb (0 =? 0) || (error_count >? 0))%bool = false).
  { simpl. destruct (Z.gtb_spec error_count 0); [lia | reflexivity]. }
  rewrite Hcond. unfold fresh_state in Heval.
  rewrite !value_of_bind, !events_of_bind. cbn [emit value_of events_of fst snd].
  rewrite Heval.
  rewrite !value_of_bind, !events_of_bind. cbn [ret value_of events_of fst snd].
  rewrite app_nil_r. split; reflexivity.
Qed.

(** C5. When [ParseString] returns a value other than 0 or counts at least
    one error, [RunUpdate] logs the count and returns false; it constructs no
    [State], does not call [Evaluate] and writes nothing to the pipe.
    [Evaluate] is called exactly when the value is 0 and no error is
    counted. *)
Theorem parse_failure_stops_run (self : Updater)
    (error : Z) (root : Expr) (error_count : Z)
    (Hparse : ParseString (updater_script_ self) = (error, root, error_count)) :
  let r := run self in
  (error <> 0 \/ error_count > 0 ->
   fst (value_of r) = false
   /\ ~ In EEvaluate (events_of r)
   /\ (forall retry, ~ In (ENewState retry) (events_of r))
   /\ pipe_writes (events_of r) = []
   /\ log_lines (events_of r)
      = [(ERROR, string_of_int error_count ++ " parse errors")])
  /\ (In EEvaluate (events_of r) <-> error = 0 /\ error_count <= 0).
Proof.
  intro r. split.
  - intro Hbad. unfold r.
    rewrite (RunUpdate_parse_failure self error root error_count Hparse Hbad).
    cbn [value_of events_of fst snd pipe_writes log_lines].
    split; [reflexivity|].
    split; [intros [H | [H | []]]; discriminate H|].
    split; [intros retry [H | [H | []]]; discriminate H|].
    split; reflexivity.
  - split.
    + intro Hin.
      destruct (Z.eq_dec error 0) as [He | He];
        [destruct (Z_le_gt_dec error_count 0) as [Hn | Hn]; [split; assumption|]|].
      * exfalso. unfold r in Hin.
        rewrite (RunUpdate_parse_failure self error root error_count Hparse
                   (or_intror Hn)) in Hin.
        destruct Hin as [H | [H | []]]; discriminate H.
      * exfalso. unfold r in Hin.
        rewrite (RunUpdate_parse_failure self error root error_count Hparse
                   (or_introl He)) in Hin.
        destruct Hin as [H | [H | []]]; discriminate H.
    + intros [He Hn]. subst error. unfold r.
      destruct (Evaluate (fresh_state codes self) root) as [[status result] st] eqn:Heval.
      destruct status.
      * destruct (RunUpdate_success self root error_count result st Hparse Hn Heval)
          as (_ & ->).
        right; right; left; reflexivity.
      * destruct (RunUpdate_failure self root error_count result st Hparse Hn Heval)
          as (_ & ->).
        right; right; left; reflexivity.
Qed.

(** C6. When the evaluation succeeds, [RunUpdate] returns true. With an
    empty result and a cause code other than "no cause" it writes the
    [log cause:] line of that code; with a result that is not empty, or
    without a cause, it writes no [log cause:] line. *)
Theorem success_logs_cause_of_empty_result (self : Updater)
    (root : Expr) (error_count : Z) (result : string) (st : State)
    (Hparse : ParseString (updater_script_ self) = (0, root, error_count))
    (Hcount : error_count <= 0)
    (Heval : Evaluate (fresh_state codes self) root = (true, result, st)) :
  let r := run self in
  fst (value_of r) = true
  /\ (result = EmptyString -> cause_code st <> kNoCause codes ->
      pipe_writes (events_of r)
      = [success_line result; log_cause_line (cause_code st)])
  /\ (result <> EmptyString \/ cause_code st = kNoCause codes ->
      pipe_writes (events_of r) = [success_line result]
      /\ forall chunk, In chunk (pipe_writes (events_of r)) -> is_log_cause chunk = false).
Proof.
  intro r. unfold r.
  destruct (RunUpdate_success self root error_count result st Hparse Hcount Heval)
    as (-> & ->).
  split; [reflexivity|]. split.
  - intros -> Hcause. apply Z.eqb_neq in Hcause. cbn [empty andb].
    rewrite Hcause. reflexivity.
  - intros Hno.
    assert (Hcond : (empty result && negb (cause_code st =? kNoCause codes))%bool = false).
    { destruct Hno as [Hres | Hcause].
      - destruct result; [contradiction Hres; reflexivity | reflexivity].
      - apply Z.eqb_eq in Hcause. rewrite Hcause. apply andb_false_r. }
    rewrite Hcond. split; [reflexivity|].
    intros chunk [<- | []]. apply is_log_cause_success_line.
Qed.

(** C9, as the code has it. When the evaluation succeeds, [RunUpdate] keeps
    the result string in [result_], writes first the success line with that
    string between the brackets as it is (no white space is removed), and
    returns true. *)
Theorem success_line_has_result_as_is (self : Updater)
    (root : Expr) (error_count : Z) (result : string) (st : State)
    (Hparse : ParseString (updater_script_ self) = (0, root, error_count))
    (Hcount : error_count <= 0)
    (Heval : Evaluate (fresh_state codes self) root = (true, result, st)) :
  let r := run self in
  fst (value_of r) = true
  /\ result_ (snd (value_of r)) = result
  /\ hd_error (pipe_writes (events_of r))
     = Some ("ui_print script succeeded: result was [" ++ c_str result ++ "]" ++ LF).
Proof.
  intro r. unfold r.
  destruct (RunUpdate_success self root error_count result st Hparse Hcount Heval)
    as (-> & ->).
  rewrite <- success_line_eq.
  split; [reflexivity | split; reflexivity].
Qed.

End RunUpdateCases.

(** ** Concrete runs of [RunUpdate] *)

(** The scenario of the spec: two parse errors, and no evaluation. *)
Lemma parse_failure_stops_run_witness :
  parse_with 0 2 (updater_script_ sample_updater) = (0, tt, 2)
  /\ (0 <> 0 \/ 2 > 0)
  /\ fst (value_of (RunUpdate spec_codes (fun _ => 0) unit (parse_with 0 2)
                      (evaluate_to true "done" (state_with EmptyString 0 0)) sample_updater))
     = false
  /\ ~ In EEvaluate
       (events_of (RunUpdate spec_codes (fun _ => 0) unit (parse_with 0 2)
                     (evaluate_to true "done" (state_with EmptyString 0 0)) sample_updater)).
Proof.
  assert (Hparse : parse_with 0 2 (updater_script_ sample_updater) = (0, tt, 2))
    by reflexivity.
  assert (Hbad : 0 <> 0 \/ 2 > 0) by (right; lia).
  split; [exact Hparse | split; [exact Hbad |]].
  destruct (parse_failure_stops_run spec_codes (fun _ => 0) unit (parse_with 0 2)
              (evaluate_to true "done" (state_with EmptyString 0 0))
              sample_updater 0 tt 2 Hparse) as (Hfail & _).
  destruct (Hfail Hbad) as (Hvalue & Hnoeval & _).
  split; [exact Hvalue | exact Hnoeval].
Defined.

(** A success with an empty result and the cause 115: the cause is logged. *)
Lemma success_logs_cause_of_empty_result_witness :
  parse_with 0 0 (updater_script_ sample_updater) = (0, tt, 0)
  /\ 0 <= 0
  /\ evaluate_to true EmptyString (state_with EmptyString 0 115)
       (fresh_state spec_codes sample_updater) tt
     = (true, EmptyString, state_with EmptyString 0 115)
  /\ cause_code (state_with EmptyString 0 115) <> kNoCause spec_codes
  /\ pipe_writes (events_of
       (RunUpdate spec_codes (fun _ => 0) unit (parse_with 0 0)
          (evaluate_to true EmptyString (state_with EmptyString 0 115)) sample_updater))
     = ["ui_print script succeeded: result was []" ++ LF; "log cause: 115" ++ LF].
Proof.
  assert (Hparse : parse_with 0 0 (updater_script_ sample_updater) = (0, tt, 0))
    by reflexivity.
  assert (Hcount : 0 <= 0) by lia.
  assert (Heval : evaluate_to true EmptyString (state_with EmptyString 0 115)
                    (fresh_state spec_codes sample_updater) tt
                  = (true, EmptyString, state_with EmptyString 0 115)) by reflexivity.
  assert (Hcause : cause_code (state_with EmptyString 0 115) <> kNoCause spec_codes)
    by (simpl; lia).
  repeat (split; [assumption|]).
  destruct (success_logs_cause_of_empty_result spec_codes (fun _ => 0) unit
              (parse_with 0 0) (evaluate_to true EmptyString (state_with EmptyString 0 115))
              sample_updater tt 0 EmptyString (state_with EmptyString 0 115) Hparse Hcount Heval)
    as (_ & Hlog & _).
  rewrite (Hlog eq_refl Hcause). reflexivity.
Defined.

(** A success with the result " ok ": the blanks are written. *)
Lemma success_line_has_result_as_is_witness :
  parse_with 0 0 (updater_script_ sample_updater) = (0, tt, 0)
  /\ 0 <= 0
  /\ evaluate_to true " ok " (state_with EmptyString 0 0)
       (fresh_state spec_codes sample_updater) tt
     = (true, " ok ", state_with EmptyString 0 0)
  /\ hd_error (pipe_writes (events_of
       (RunUpdate spec_codes (fun _ => 0) unit (parse_with 0 0)
          (evaluate_to true " ok " (state_with EmptyString 0 0)) sample_updater)))
     = Some ("ui_print script succeeded: result was [ ok ]" ++ LF).
Proof.
  assert (Hparse : parse_with 0 0 (updater_script_ sample_updater) = (0, tt, 0))
    by reflexivity.
  assert (Hcount : 0 <= 0) by lia.
  assert (Heval : evaluate_to true " ok " (state_with EmptyString 0 0)
                    (fresh_state spec_codes sample_updater) tt
                  = (true, " ok ", state_with EmptyString 0 0)) by reflexivity.
  repeat (split; [assumption|]).
  destruct (success_line_has_result_as_is spec_codes (fun _ => 0) unit
              (parse_with 0 0) (evaluate_to true " ok " (state_with EmptyString 0 0))
              sample_updater tt 0 " ok " (state_with EmptyString 0 0) Hparse Hcount Heval)
    as (_ & _ & Hline).
  rewrite Hline. reflexivity.
Defined.

(** C9 as stated fails: for the result " ok " the trimmed string is "ok", and
    the one line written holds " ok " between the brackets, not "ok". *)
Lemma success_line_is_not_trimmed :
  Trim " ok " = "ok"
  /\ pipe_writes (events_of
       (RunUpdate spec_codes (fun _ => 0) unit (parse_with 0 0)
          (evaluate_to true " ok " (state_with EmptyString 0 0)) sample_updater))
     = ["ui_print script succeeded: result was [ ok ]" ++ LF]
  /\ ~ In ("ui_print script succeeded: result was [" ++ Trim " ok " ++ "]" ++ LF)
          (pipe_writes (events_of
             (RunUpdate spec_codes (fun _ => 0) unit (parse_with 0 0)
                (evaluate_to true " ok " (state_with EmptyString 0 0)) sample_updater))).
Proof.
  split; [reflexivity | split; [reflexivity |]].
  vm_compute. intros [H | []]. discriminate H.
Qed.

(** ** [UiPrint] *)

Lemma UiPrint_loop_writes (lines : list string) :
  pipe_writes (events_of
    (for_each lines (fun line _ =>
       if negb (empty line)
       then fprintf ("ui_print %s" ++ LF) [ArgS (c_str line)]
       else ret tt) tt))
  = map ui_print_line (filter (fun line => negb (empty line)) lines).
Proof.
  induction lines as [|line lines IH]; [reflexivity|].
  cbn [for_each filter].
  rewrite events_of_bind, pipe_writes_app.
  destruct (negb (empty line)).
  - cbn [map]. rewrite <- IH. reflexivity.
  - rewrite <- IH. reflexivity.
Qed.

(** C7. [UiPrint] splits the message at the newlines and writes the pieces
    that are not empty, in order, each with one [fprintf] of the format
    "ui_print %s\n" (so as C text, up to a byte 0 if the piece holds one);
    for the empty pieces, the one after a final newline included, it writes
    nothing. The message "a\nb\n" gives the two lines [ui_print a] and
    [ui_print b]. *)
Theorem UiPrint_writes_nonempty_pieces (message : string) :
  pipe_writes (events_of (UiPrint message))
  = map (fun piece => "ui_print " ++ c_str piece ++ LF)
        (filter (fun piece => negb (empty piece)) (Split message LF))
  /\ pipe_writes (events_of (UiPrint ("a" ++ LF ++ "b" ++ LF)))
     = ["ui_print a" ++ LF; "ui_print b" ++ LF].
Proof.
  split; [|reflexivity].
  unfold UiPrint.
  rewrite events_of_bind, pipe_writes_app, UiPrint_loop_writes.
  cbn [LOG emit events_of snd pipe_writes].
  rewrite app_nil_r. apply map_ext. exact ui_print_line_eq.
Qed.

(** ** Every chunk is one line *)

Lemma c_str_nul_free (s : string) : nul_free s = true -> c_str s = s.
Proof.
  induction s as [|c s IH]; simpl; intro H; [reflexivity|].
  apply andb_true_iff in H. destruct H as [Hc Hs].
  apply negb_true_iff in Hc. rewrite Hc, (IH Hs). reflexivity.
Qed.

Lemma c_str_newline_free (s : string) :
  newline_free s = true -> newline_free (c_str s) = true.
Proof.
  induction s as [|c s IH]; simpl; intro H; [reflexivity|].
  apply andb_true_iff in H. destruct H as [Hc Hs].
  destruct (Ascii.eqb c NUL); simpl; [reflexivity|].
  rewrite Hc, (IH Hs). reflexivity.
Qed.

Lemma newline_free_app (a b : string) :
  newline_free a = true -> newline_free b = true -> newline_free (a ++ b) = true.
Proof.
  induction a as [|c a IH]; simpl; intros Ha Hb; [exact Hb|].
  apply andb_true_iff in Ha. destruct Ha as [Hc Ha].
  rewrite Hc, (IH Ha Hb). reflexivity.
Qed.

Lemma single_line_app_LF (s : string) :
  newline_free s = true -> single_line (s ++ LF) = true.
Proof.
  induction s as [|c s IH]; intro H; [reflexivity|].
  cbn [newline_free] in H. apply andb_true_iff in H. destruct H as [Hc Hs].
  change (String c s ++ LF) with (String c (s ++ LF)).
  specialize (IH Hs).
  destruct (s ++ LF) as [|c' s'] eqn:Happ; [discriminate IH|].
  cbn [single_line]. cbn [single_line] in IH. rewrite Hc, IH. reflexivity.
Qed.

Lemma Split_newline_free (s : string) :
  Forall (fun piece => newline_free piece = true) (Split s LF).
Proof.
  induction s as [|c s IH]; cbn [Split].
  - repeat constructor.
  - cbn [is_delimiter LF]. rewrite orb_false_r.
    destruct (Ascii.eqb c nl) eqn:Hc.
    + constructor; [reflexivity | exact IH].
    + destruct (Split s LF) as [|piece pieces].
      * constructor; [cbn [newline_free]; rewrite Hc; reflexivity | constructor].
      * inversion IH as [|? ? Hpiece Hpieces]; subst.
        constructor; [cbn [newline_free]; rewrite Hc, Hpiece; reflexivity | exact Hpieces].
Qed.

Lemma string_of_uint_newline_free (d : Decimal.uint) :
  newline_free (DecimalString.NilEmpty.string_of_uint d) = true.
Proof. induction d; simpl; auto. Qed.

Lemma string_of_int_newline_free (v : Z) : newline_free (string_of_int v) = true.
Proof.
  unfold string_of_int, NilZero.string_of_int, NilZero.string_of_uint.
  destruct (Z.to_int v) as [d | d]; destruct d; simpl;
    auto using string_of_uint_newline_free.
Qed.

Lemma ui_print_line_single (piece : string) :
  newline_free piece = true -> single_line (ui_print_line piece) = true.
Proof.
  intro H. rewrite ui_print_line_eq.
  change ("ui_print " ++ c_str piece ++ LF) with (("ui_print " ++ c_str piece) ++ LF).
  apply single_line_app_LF, newline_free_app;
    [reflexivity | apply c_str_newline_free, H].
Qed.

Lemma log_error_line_single (v : Z) : single_line (log_error_line v) = true.
Proof.
  rewrite log_error_line_eq.
  change ("log error: " ++ string_of_int v ++ LF)
    with (("log error: " ++ string_of_int v) ++ LF).
  apply single_line_app_LF, newline_free_app;
    [reflexivity | apply string_of_int_newline_free].
Qed.

Lemma log_cause_line_single (c : Z) : single_line (log_cause_line c) = true.
Proof.
  rewrite log_cause_line_eq.
  change ("log cause: " ++ string_of_int c ++ LF)
    with (("log cause: " ++ string_of_int c) ++ LF).
  apply single_line_app_LF, newline_free_app;
    [reflexivity | apply string_of_int_newline_free].
Qed.

(** Every [fprintf] of the failure report writes one line: a newline at the
    end of the chunk and none inside it. *)
Lemma report_chunks_single_line (codes : ErrorCodes) (ovf : Z -> Z) (st : State) :
  Forall (fun chunk => single_line chunk = true)
         (pipe_writes (events_of (ParseAndReportErrorCode codes ovf st))).
Proof.
  destruct (report_shape codes ovf st) as (_ & _ & ->).
  apply Forall_app. split; [|constructor].
  - unfold abort_lines. destruct (empty (errmsg st)).
    + repeat constructor.
    + apply Forall_forall. intros chunk Hin.
      apply in_map_iff in Hin. destruct Hin as (piece & <- & Hin).
      apply ui_print_line_single.
      pose proof (Split_newline_free (errmsg st)) as Hall.
      rewrite Forall_forall in Hall. exact (Hall piece Hin).
  - apply log_error_line_single.
  - unfold cause_lines. destruct (negb (cause_code st =? kNoCause codes)); [|constructor].
    constructor; [apply log_cause_line_single|].
    destruct (is_retry_cause codes (cause_code st)); repeat constructor.
Qed.

(** So does every [fprintf] of [UiPrint]. *)
Lemma UiPrint_chunks_single_line (message : string) :
  Forall (fun chunk => single_line chunk = true)
         (pipe_writes (events_of (UiPrint message))).
Proof.
  unfold UiPrint.
  rewrite events_of_bind, pipe_writes_app, UiPrint_loop_writes.
  cbn [LOG emit events_of snd pipe_writes]. rewrite app_nil_r.
  apply Forall_forall. intros chunk Hin.
  apply in_map_iff in Hin. destruct Hin as (piece & <- & Hin).
  apply filter_In in Hin. destruct Hin as [Hin _].
  apply ui_print_line_single.
  pose proof (Split_newline_free message) as Hall.
  rewrite Forall_forall in Hall. exact (Hall piece Hin).
Qed.

(** A piece without the byte 0 is written whole. *)
Lemma ui_print_line_nul_free (piece : string) :
  nul_free piece = true -> ui_print_line piece = "ui_print " ++ piece ++ LF.
Proof.
  intro H. rewrite ui_print_line_eq, (c_str_nul_free _ H). reflexivity.
Qed.

(** ** [Init], case by case *)

Section InitCases.

Variable MemMapping : Type.
Variable ZipEntry : Type.
Variable fdopen : Z -> Z.
Variable MapFile : MemMapping -> string -> bool * MemMapping.
Variable OpenArchiveFromMemory : MemMapping -> string -> Z -> Z * Z.
Variable FindEntry : Z -> string -> Z * ZipEntry.
Variable ExtractToMemory : Z -> ZipEntry -> Z -> Z * string.
Variable ErrorCodeString : Z -> string.
Variable uncompressed_length : ZipEntry -> Z.
Variable SCRIPT_NAME : string.

Local Abbreviation init :=
  (Init MemMapping ZipEntry fdopen MapFile OpenArchiveFromMemory FindEntry
        ExtractToMemory ErrorCodeString uncompressed_length SCRIPT_NAME).

(** The results of the calls of [Init], each on what the calls before it
    left. *)
Local Abbreviation mapped_of path self := (MapFile (mapped_package_ self) path).
Local Abbreviation opened_of path self :=
  (OpenArchiveFromMemory (snd (mapped_of path self)) (c_str path) (package_handle_ self)).
Local Abbreviation found_of path self :=
  (FindEntry (snd (opened_of path self)) SCRIPT_NAME).
Local Abbreviation extracted_of path self :=
  (ExtractToMemory (snd (opened_of path self)) (snd (found_of path self))
                   (uncompressed_length (snd (found_of path self)))).

Ltac init_setters :=
  cbv zeta;
  cbn [cmd_pipe_ mapped_package_ package_handle_ sehandle_ members
       set_cmd_pipe_ set_mapped_package_ set_package_handle_ set_sehandle_
       set_is_retry_ is_retry_ updater_script_ result_ fst snd].

Ltac init_cases fd path self :=
  unfold Init; init_setters;
  destruct (Z.eqb_spec (fdopen fd) nullptr) as [Hpipe | Hpipe];
  [| destruct (MapFile (mapped_package_ self) path) as [mapped mapping];
     init_setters;
     destruct mapped; cbn [negb];
     [ destruct (OpenArchiveFromMemory mapping (c_str path) (package_handle_ self))
         as [open_err handle];
       init_setters;
       destruct (Z.eqb_spec open_err 0) as [Hopen | Hopen]; cbn [negb];
       [ destruct (FindEntry handle SCRIPT_NAME) as [find_err script_entry];
         init_setters;
         destruct (Z.eqb_spec find_err 0) as [Hfind | Hfind]; cbn [negb];
         [ destruct (ExtractToMemory handle script_entry
                                     (uncompressed_length script_entry))
             as [extract_err script];
           init_setters;
           destruct (Z.eqb_spec extract_err 0) as [Hextract | Hextract]; cbn [negb]
         | ]
       | ]
     | ] ].

(** X1. [Init] returns true exactly when the stream is opened, the package
    is mapped, and opening the archive, finding the script entry and
    extracting it all return 0. *)
Theorem Init_succeeds_iff (fd : Z) (path : string) (is_retry : bool)
    (sehandle : Z) (self : UpdaterObject MemMapping) :
  fst (fst (init fd path is_retry sehandle self)) = true
  <-> fdopen fd <> nullptr
      /\ fst (mapped_of path self) = true
      /\ fst (opened_of path self) = 0
      /\ fst (found_of path self) = 0
      /\ fst (extracted_of path self) = 0.
Proof.
  init_cases fd path self.
  - split; [intro H; discriminate H | intros (H & _); contradiction].
  - destruct (Z.eqb_spec sehandle nullptr);
      (split; [intros _; repeat split; assumption | reflexivity]).
  - split; [intro H; discriminate H | intros (_ & _ & _ & _ & H); contradiction].
  - split; [intro H; discriminate H | intros (_ & _ & _ & H & _); contradiction].
  - split; [intro H; discriminate H | intros (_ & _ & H & _); contradiction].
  - split; [intro H; discriminate H | intros (_ & H & _); discriminate H].
Qed.


(** X3. A failed [Init] writes nothing to the command pipe and logs exactly
    one line, an error. A successful [Init] logs nothing, and writes to the
    pipe the warning "ui_print Warning: No file_contexts" when the handle of
    the security labels is null, and nothing otherwise. *)
Theorem Init_reports_failure_in_log_only (fd : Z) (path : string) (is_retry : bool)
    (sehandle : Z) (self : UpdaterObject MemMapping) :
  let r := init fd path is_retry sehandle self in
  (fst (fst r) = false ->
   pipe_writes (events_in (snd r)) = []
   /\ exists text, log_lines (events_in (snd r)) = [(ERROR, text)])
  /\ (fst (fst r) = true ->
      log_lines (events_in (snd r)) = []
      /\ pipe_writes (events_in (snd r))
         = if sehandle =? nullptr
           then ["ui_print Warning: No file_contexts" ++ LF] else []).
Proof.
  init_cases fd path self;
    try (split; [intros _; split; [reflexivity | eexists; reflexivity]
                | intro H; discriminate H]).
  destruct (Z.eqb_spec sehandle nullptr);
    (split; [intro H; discriminate H | intros _; split; reflexivity]).
Qed.

Lemma RunUpdate_first_event (codes : ErrorCodes) (ovf : Z -> Z) (Expr : Type)
    (ParseString : string -> Z * Expr * Z)
    (Evaluate : State -> Expr -> bool * string * State) (self : Updater) :
  hd_error (events_of (RunUpdate codes ovf Expr ParseString Evaluate self))
  = Some (EParseString (updater_script_ self)).
Proof. unfold RunUpdate. rewrite events_of_bind. reflexivity. Qed.

(** X4. [Init] extracts the script into a local buffer and stores it
    nowhere: [updater_script_] and [result_] are after [Init] what they were
    before, whatever the package holds, so a [RunUpdate] that follows parses
    the script the updater held before [Init]. The retry flag and the handle
    of the security labels are stored when [Init] succeeds, and left as they
    were when it fails. *)
Theorem Init_does_not_store_the_script (fd : Z) (path : string) (is_retry : bool)
    (sehandle : Z) (self : UpdaterObject MemMapping) :
  let r := init fd path is_retry sehandle self in
  let obj := snd (fst r) in
  updater_script_ (members obj) = updater_script_ (members self)
  /\ result_ (members obj) = result_ (members self)
  /\ (forall codes ovf Expr ParseString Evaluate,
        hd_error (events_of
          (RunUpdate codes ovf Expr ParseString Evaluate (members obj)))
        = Some (EParseString (updater_script_ (members self))))
  /\ (fst (fst r) = true ->
      is_retry_ (members obj) = is_retry /\ sehandle_ obj = sehandle)
  /\ (fst (fst r) = false ->
      is_retry_ (members obj) = is_retry_ (members self)
      /\ sehandle_ obj = sehandle_ self).
Proof.
  intros r obj.
  assert (H : updater_script_ (members obj) = updater_script_ (members self)
              /\ result_ (members obj) = result_ (members self)
              /\ (fst (fst r) = true ->
                  is_retry_ (members obj) = is_retry /\ sehandle_ obj = sehandle)
              /\ (fst (fst r) = false ->
                  is_retry_ (members obj) = is_retry_ (members self)
                  /\ sehandle_ obj = sehandle_ self)).
  { unfold obj, r. clear r obj.
    init_cases fd path self;
      try destruct (Z.eqb_spec sehandle nullptr);
      repeat split; try reflexivity;
      match goal with
      | H : fst (fst _) = _ |- _ => lazy in H; discriminate H
      end. }
  destruct H as (Hscript & Hresult & Hok & Hfail).
  repeat split; try assumption; try (apply Hok; assumption);
    try (apply Hfail; assumption).
  intros. rewrite RunUpdate_first_event, Hscript. reflexivity.
Qed.

(** X5. The destructor closes the archive exactly when the handle is not
    null. After [Init] the handle is the one [OpenArchiveFromMemory] left when
    [Init] got as far as that call, also when [Init] failed afterwards; when
    [Init] failed before (no stream, no mapping), it is the handle the updater
    held before. *)
Theorem destructor_closes_what_Init_opened (fd : Z) (path : string) (is_retry : bool)
    (sehandle : Z) (self : UpdaterObject MemMapping) :
  let obj := snd (fst (init fd path is_retry sehandle self)) in
  package_handle_ obj
  = (if (negb (fdopen fd =? nullptr) && fst (mapped_of path self))%bool
     then snd (opened_of path self)
     else package_handle_ self)
  /\ calls_in (snd (Updater_dtor obj))
     = (if package_handle_ obj =? nullptr
        then []
        else [CCloseArchive (ZipEntry := ZipEntry) (package_handle_ obj)]).
Proof.
  intro obj.
  split.
  - unfold obj. clear obj.
    init_cases fd path self; try reflexivity;
      try (destruct (Z.eqb_spec (fdopen fd) nullptr); [contradiction | reflexivity]).
    + destruct (Z.eqb_spec sehandle nullptr);
        (destruct (Z.eqb_spec (fdopen fd) nullptr); [contradiction | reflexivity]).
  - unfold Updater_dtor.
    destruct (package_handle_ obj =? nullptr); reflexivity.
Qed.

End InitCases.

(** ** Lines and newlines *)

Lemma single_line_app_LF_eq (s : string) :
  single_line (s ++ LF) = newline_free s.
Proof.
  induction s as [|c s IH]; [reflexivity|].
  change (String c s ++ LF) with (String c (s ++ LF)).
  cbn [newline_free]. rewrite <- IH.
  destruct (s ++ LF) as [|c' s'] eqn:Happ.
  - destruct s; discriminate Happ.
  - reflexivity.
Qed.

Lemma Split_nonempty (s : string) :
  exists piece pieces, Split s LF = piece :: pieces.
Proof.
  destruct s as [|c s]; cbn [Split]; [eexists; eexists; reflexivity|].
  destruct (is_delimiter c LF); [eexists; eexists; reflexivity|].
  destruct (Split s LF); eexists; eexists; reflexivity.
Qed.

Lemma Split_app_LF (a b : string) :
  Split (a ++ LF ++ b) LF = (Split a LF ++ Split b LF)%list.
Proof.
  induction a as [|c a IH]; [reflexivity|].
  change (String c a ++ LF ++ b) with (String c (a ++ LF ++ b)).
  cbn [Split]. rewrite IH.
  destruct (is_delimiter c LF); [reflexivity|].
  destruct (Split_nonempty a) as (piece & pieces & ->). reflexivity.
Qed.

Lemma c_str_idempotent (s : string) : c_str (c_str s) = c_str s.
Proof.
  induction s as [|c s IH]; simpl; [reflexivity|].
  destruct (Ascii.eqb c NUL) eqn:E; simpl; [reflexivity|].
  rewrite E, IH; reflexivity.
Qed.

Lemma WriteToCommandPipe_chunk (message : string) :
  sprintf ("%s" ++ LF) [ArgS (c_str message)] = c_str message ++ LF.
Proof. simpl. rewrite c_str_idempotent. reflexivity. Qed.

(** X6. [WriteToCommandPipe] writes the message (as C text) and a newline
    with one [fprintf], and calls [fflush] exactly when [flush] is set. It
    does not split the message: what it writes is one line exactly when the
    text holds no newline. *)
Theorem WriteToCommandPipe_writes_once (message : string) (flush : bool) :
  let t := events_of (WriteToCommandPipe message flush) in
  pipe_writes t = [c_str message ++ LF]
  /\ (In EFflush t <-> flush = true)
  /\ Forall (fun chunk => single_line chunk = newline_free (c_str message))
            (pipe_writes t).
Proof.
  cbv zeta.
  assert (Hpipe : pipe_writes (events_of (WriteToCommandPipe message flush))
                  = [c_str message ++ LF]).
  { unfold WriteToCommandPipe, fprintf.
    rewrite events_of_bind, pipe_writes_app, WriteToCommandPipe_chunk.
    destruct flush; reflexivity. }
  rewrite Hpipe. split; [reflexivity|]. split.
  - unfold WriteToCommandPipe, fprintf. rewrite events_of_bind.
    cbn [emit events_of value_of fst snd app In].
    destruct flush; cbn [fflush emit ret events_of snd In].
    + split; [reflexivity | intros _; right; left; reflexivity].
    + split; [intros [H | []]; discriminate H | intro H; discriminate H].
  - constructor; [apply single_line_app_LF_eq | constructor].
Qed.

(** X7. Whatever the abort message, the error code and the cause, every
    [fprintf] of the failure report writes exactly one line: a newline at the
    end of the chunk and none inside it. *)
Theorem failure_report_writes_whole_lines
    (codes : ErrorCodes) (ovf : Z -> Z) (st : State) :
  Forall (fun chunk => single_line chunk = true)
         (pipe_writes (events_of (ParseAndReportErrorCode codes ovf st))).
Proof. apply report_chunks_single_line. Qed.

(** X8. Whatever the message, every [fprintf] of [UiPrint] writes exactly one
    line that begins with "ui_print ". *)
Theorem UiPrint_writes_whole_lines (message : string) :
  Forall (fun chunk => single_line chunk = true /\ is_ui_print chunk = true)
         (pipe_writes (events_of (UiPrint message))).
Proof.
  pose proof (UiPrint_chunks_single_line message) as Hsingle.
  rewrite Forall_forall in Hsingle |- *. intros chunk Hin.
  split; [exact (Hsingle chunk Hin)|].
  unfold UiPrint in Hin.
  rewrite events_of_bind, pipe_writes_app, UiPrint_loop_writes in Hin.
  cbn [LOG emit events_of snd pipe_writes] in Hin. rewrite app_nil_r in Hin.
  apply in_map_iff in Hin. destruct Hin as (piece & <- & _).
  apply is_ui_print_ui_print_line.
Qed.

Lemma UiPrint_pipe_writes (message : string) :
  pipe_writes (events_of (UiPrint message))
  = map ui_print_line (filter (fun piece => negb (empty piece)) (Split message LF)).
Proof.
  unfold UiPrint.
  rewrite events_of_bind, pipe_writes_app, UiPrint_loop_writes.
  cbn [LOG emit events_of snd pipe_writes]. apply app_nil_r.
Qed.

(** X9. [UiPrint] of two messages joined by a newline writes to the pipe
    what [UiPrint] of the first and then [UiPrint] of the second write. *)
Theorem UiPrint_of_joined_messages (first second : string) :
  pipe_writes (events_of (UiPrint (first ++ LF ++ second)))
  = (pipe_writes (events_of (UiPrint first))
     ++ pipe_writes (events_of (UiPrint second)))%list.
Proof.
  rewrite !UiPrint_pipe_writes, Split_app_LF, filter_app, map_app. reflexivity.
Qed.

Lemma no_piece_iff_only_newlines (s : string) :
  filter (fun piece => negb (empty piece)) (Split s LF) = []
  <-> only_newlines s = true.
Proof.
  induction s as [|c s IH]; [split; reflexivity|].
  cbn [Split only_newlines is_delimiter LF]. rewrite orb_false_r.
  destruct (Ascii.eqb c nl); cbn [andb].
  - cbn [filter empty negb]. exact IH.
  - destruct (Split s LF); cbn [filter empty negb];
      (split; intro H; discriminate H).
Qed.

(** X10. [UiPrint] writes nothing to the pipe exactly when the message is
    empty or made of newlines only; it still logs the message, once, whatever
    it is. *)
Theorem UiPrint_is_silent_iff_no_text (message : string) :
  (pipe_writes (events_of (UiPrint message)) = [] <-> only_newlines message = true)
  /\ log_lines (events_of (UiPrint message)) = [(INFO, message)].
Proof.
  split.
  - rewrite UiPrint_pipe_writes, <- no_piece_iff_only_newlines.
    destruct (filter _ _); cbn [map]; split; intro H;
      try reflexivity; discriminate H.
  - unfold UiPrint. rewrite events_of_bind, log_lines_app.
    cbn [LOG emit events_of snd log_lines].
    assert (Hloop : forall lines u,
      log_lines (events_of
        (for_each lines (fun line (_ : unit) =>
           if negb (empty line)
           then fprintf ("ui_print %s" ++ LF) [ArgS (c_str line)]
           else ret tt) u)) = []).
    { induction lines as [|line lines IH]; intro u; [reflexivity|].
      cbn [for_each]. rewrite events_of_bind, log_lines_app, IH.
      destruct (negb (empty line)); reflexivity. }
    rewrite Hloop. reflexivity.
Qed.

(** ** The abort message, back from the lines *)

Lemma join_lines_Split (s : string) : join_lines (Split s LF) = s.
Proof.
  induction s as [|c s IH]; [reflexivity|].
  cbn [Split is_delimiter LF]. rewrite orb_false_r.
  destruct (Ascii.eqb_spec c nl) as [-> | Hc].
  - destruct (Split_nonempty s) as (piece & pieces & Hs).
    rewrite Hs in IH |- *.
    change (join_lines (EmptyString :: piece :: pieces))
      with (EmptyString ++ LF ++ join_lines (piece :: pieces)).
    rewrite IH. reflexivity.
  - destruct (Split_nonempty s) as (piece & pieces & Hs).
    rewrite Hs in IH |- *. rewrite <- IH.
    destruct pieces; reflexivity.
Qed.

Lemma Split_nul_free (s : string) :
  nul_free s = true -> Forall (fun piece => nul_free piece = true) (Split s LF).
Proof.
  induction s as [|c s IH]; intro H; cbn [Split].
  - repeat constructor.
  - cbn [nul_free] in H. apply andb_true_iff in H. destruct H as [Hc Hs].
    specialize (IH Hs).
    destruct (is_delimiter c LF).
    + constructor; [reflexivity | exact IH].
    + destruct (Split s LF) as [|piece pieces].
      * constructor; [cbn [nul_free]; rewrite Hc; reflexivity | constructor].
      * inversion IH as [|? ? Hpiece Hpieces]; subst.
        constructor; [cbn [nul_free]; rewrite Hc, Hpiece; reflexivity | exact Hpieces].
Qed.

Lemma drop_last_newline_app_LF (s : string) :
  newline_free s = true -> drop_last_newline (s ++ LF) = Some s.
Proof.
  induction s as [|c s IH]; intro H; [reflexivity|].
  cbn [newline_free] in H. apply andb_true_iff in H. destruct H as [_ Hs].
  change (String c s ++ LF) with (String c (s ++ LF)).
  specialize (IH Hs). cbn [drop_last_newline].
  destruct (s ++ LF) as [|c' s'] eqn:Happ.
  - destruct s; discriminate Happ.
  - rewrite IH. reflexivity.
Qed.

Lemma ui_print_text_ui_print_line (piece : string) :
  nul_free piece = true -> newline_free piece = true ->
  ui_print_text (ui_print_line piece) = Some piece.
Proof.
  intros Hnul Hnl. rewrite (ui_print_line_nul_free _ Hnul).
  unfold ui_print_text.
  change (strip_prefix "ui_print " ("ui_print " ++ piece ++ LF)) with (Some (piece ++ LF)).
  apply drop_last_newline_app_LF, Hnl.
Qed.

Lemma Split_one_piece (piece : string) :
  newline_free piece = true -> Split piece LF = [piece].
Proof.
  induction piece as [|c piece IH]; intro H; [reflexivity|].
  cbn [newline_free] in H. apply andb_true_iff in H. destruct H as [Hc Hpiece].
  cbn [Split is_delimiter LF]. rewrite orb_false_r.
  apply negb_true_iff in Hc. rewrite Hc, (IH Hpiece). reflexivity.
Qed.

Lemma Split_join_lines (pieces : list string) :
  pieces <> [] ->
  Forall (fun piece => newline_free piece = true) pieces ->
  Split (join_lines pieces) LF = pieces.
Proof.
  induction pieces as [|piece pieces IH]; intros Hne Hall;
    [contradiction Hne; reflexivity|].
  inversion Hall as [|? ? Hpiece Hpieces]; subst.
  destruct pieces as [|next pieces].
  - apply Split_one_piece, Hpiece.
  - change (join_lines (piece :: next :: pieces))
      with (piece ++ LF ++ join_lines (next :: pieces)).
    rewrite Split_app_LF, (Split_one_piece _ Hpiece), IH;
      [reflexivity | discriminate | exact Hpieces].
Qed.

(** X11. The abort message can be read back from the failure report. When
    the message is not empty and holds no byte 0, the texts of the [ui_print]
    lines are, in order, the pieces [Split] cuts the message into; none of
    them holds a newline, joined by newlines they are the message, and they
    are the only such list of pieces. *)
Theorem abort_message_read_back (codes : ErrorCodes) (ovf : Z -> Z) (st : State)
    (Hmessage : errmsg st <> EmptyString)
    (Htext : nul_free (errmsg st) = true) :
  let r := ParseAndReportErrorCode codes ovf st in
  map ui_print_text (ui_print_lines (events_of r))
  = map Some (Split (errmsg st) LF)
  /\ Forall (fun piece => newline_free piece = true) (Split (errmsg st) LF)
  /\ join_lines (Split (errmsg st) LF) = errmsg st
  /\ (forall pieces : list string,
        Forall (fun piece => newline_free piece = true) pieces ->
        join_lines pieces = errmsg st ->
        pieces = Split (errmsg st) LF).
Proof.
  intro r.
  split; [|split; [apply Split_newline_free | split; [apply join_lines_Split |]]].
  - unfold r. rewrite report_ui_print_lines. unfold abort_lines.
    destruct (errmsg st) as [|c m] eqn:Hmsg; [contradiction Hmessage; reflexivity|].
    cbn [empty]. rewrite map_map. apply map_ext_in.
    intros piece Hin. apply ui_print_text_ui_print_line.
    + pose proof (Split_nul_free _ Htext) as Hall.
      rewrite Forall_forall in Hall. exact (Hall piece Hin).
    + pose proof (Split_newline_free (String c m)) as Hall.
      rewrite Forall_forall in Hall. exact (Hall piece Hin).
  - intros pieces Hall Hjoin. rewrite <- Hjoin. symmetry.
    apply Split_join_lines; [|exact Hall].
    intros ->. apply Hmessage. symmetry. exact Hjoin.
Qed.

(** The message of the spec's scenario, with a blank line in it: three
    [ui_print] lines, the second with an empty text. *)
Lemma abort_message_read_back_witness :
  errmsg (state_with ("E30: wrong device." ++ LF ++ LF ++ "Please check.") 0 0)
    <> EmptyString
  /\ nul_free (errmsg (state_with ("E30: wrong device." ++ LF ++ LF ++ "Please check.") 0 0))
     = true
  /\ map ui_print_text (ui_print_lines (events_of
       (ParseAndReportErrorCode spec_codes (fun _ => 0)
          (state_with ("E30: wrong device." ++ LF ++ LF ++ "Please check.") 0 0))))
     = [Some "E30: wrong device."; Some EmptyString; Some "Please check."].
Proof.
  assert (Hmessage :
    errmsg (state_with ("E30: wrong device." ++ LF ++ LF ++ "Please check.") 0 0)
    <> EmptyString) by discriminate.
  assert (Htext :
    nul_free (errmsg (state_with ("E30: wrong device." ++ LF ++ LF ++ "Please check.") 0 0))
    = true) by reflexivity.
  split; [exact Hmessage | split; [exact Htext |]].
  rewrite (proj1 (abort_message_read_back spec_codes (fun _ => 0) _ Hmessage Htext)).
  reflexivity.
Defined.

(** X12. No failure is silent: whatever the state, the failure report
    writes a [ui_print] line first and at least one more line after it. *)
Theorem failure_report_is_never_silent (codes : ErrorCodes) (ovf : Z -> Z) (st : State) :
  exists first rest,
    pipe_writes (events_of (ParseAndReportErrorCode codes ovf st)) = first :: rest
    /\ is_ui_print first = true
    /\ rest <> [].
Proof.
  destruct (report_shape codes ovf st) as (_ & _ & ->).
  pose proof (abort_lines_ui_print st) as Hui.
  unfold abort_lines in *.
  destruct (empty (errmsg st)).
  - eexists; eexists. split; [reflexivity|]. split; [reflexivity | discriminate].
  - destruct (Split_nonempty (errmsg st)) as (piece & pieces & Hs).
    rewrite Hs in Hui |- *. cbn [map app] in Hui |- *.
    eexists; eexists. split; [reflexivity|].
    split; [inversion Hui; assumption|].
    destruct (map ui_print_line pieces); discriminate.
Qed.

(** X13. Whatever the abort message, the error lines of the log of a failure
    report are the line with the whole message and then one warning for each
    line of the message that begins with E and from which no number is read,
    in the order of the lines. *)
Theorem failure_report_error_log (codes : ErrorCodes) (ovf : Z -> Z) (st : State)
    (Hmessage : errmsg st <> EmptyString) :
  filter (fun entry => match fst entry with ERROR => true | INFO => false end)
         (log_lines (events_of (ParseAndReportErrorCode codes ovf st)))
  = (ERROR, "script aborted: " ++ errmsg st)
    :: map (fun line => (ERROR, "Failed to parse error code: [" ++ line ++ "]"))
           (filter (fun line => (starts_with_char "E" line && negb (scans_number line))%bool)
                   (Split (errmsg st) LF)).
Proof.
  unfold ParseAndReportErrorCode.
  destruct (errmsg st) as [|c m] eqn:Hmsg; [contradiction Hmessage; reflexivity|].
  cbn [empty]. rewrite <- Hmsg.
  rewrite !events_of_bind, !log_lines_app, !filter_app.
  destruct (for_each_report_line ovf (Split (errmsg st) LF) st)
    as (_ & Hc & _ & _ & _ & Hl).
  rewrite Hl. cbn [LOG emit events_of snd log_lines filter fst app].
  f_equal.
  assert (Hwarn : forall lines,
    filter (fun entry : LogSeverity * string =>
              match fst entry with ERROR => true | INFO => false end)
           (flat_map line_warning lines)
    = map (fun line => (ERROR, "Failed to parse error code: [" ++ line ++ "]"))
          (filter (fun line => (starts_with_char "E" line && negb (scans_number line))%bool)
                  lines)).
  { induction lines as [|line lines IH]; [reflexivity|].
    cbn [flat_map]. rewrite filter_app, IH. unfold line_warning at 1.
    cbn [filter].
    destruct (starts_with_char "E" line && negb (scans_number line))%bool; reflexivity. }
  rewrite Hwarn.
  match goal with
  | |- (?l ++ ?rest)%list = ?l => assert (Hrest : rest = []); [|rewrite Hrest; apply app_nil_r]
  end.
  set (st1 := value_of _).
  set (st2 := if error_code st1 =? kNoError codes then _ else st1).
  cbn [fprintf emit events_of snd log_lines filter app].
  destruct (negb (cause_code st2 =? kNoCause codes)); [|reflexivity].
  rewrite events_of_bind, log_lines_app, filter_app.
  cbn [fprintf emit events_of snd log_lines filter app].
  destruct (cause_code st2 =? kPatchApplicationFailure codes); [reflexivity|].
  destruct (cause_code st2 =? kEioFailure codes); reflexivity.
Qed.

(** A message with two lines that look like a marker and are not read. *)
Lemma failure_report_error_log_witness :
  errmsg (state_with ("Error: no space" ++ LF ++ "E30: x" ++ LF ++ "E-") 0 0)
    <> EmptyString
  /\ filter (fun entry => match fst entry with ERROR => true | INFO => false end)
       (log_lines (events_of
          (ParseAndReportErrorCode spec_codes (fun _ => 0)
             (state_with ("Error: no space" ++ LF ++ "E30: x" ++ LF ++ "E-") 0 0))))
     = [(ERROR, "script aborted: Error: no space" ++ LF ++ "E30: x" ++ LF ++ "E-");
        (ERROR, "Failed to parse error code: [Error: no space]");
        (ERROR, "Failed to parse error code: [E-]")].
Proof.
  assert (Hmessage :
    errmsg (state_with ("Error: no space" ++ LF ++ "E30: x" ++ LF ++ "E-") 0 0)
    <> EmptyString) by discriminate.
  split; [exact Hmessage|].
  rewrite (failure_report_error_log spec_codes (fun _ => 0) _ Hmessage).
  reflexivity.
Defined.

(** X14. When no line of the abort message is read as a number, the code on
    the [log error:] line is the code the state came with, and the fallback
    when it came with none. *)
Theorem message_without_code_reports_fallback
    (codes : ErrorCodes) (ovf : Z -> Z) (st : State)
    (Hunread : Forall (fun line => scans_number line = false) (Split (errmsg st) LF)) :
  log_error_lines (events_of (ParseAndReportErrorCode codes ovf st))
  = [log_error_line (if error_code st =? kNoError codes
                     then kScriptExecutionFailure codes
                     else error_code st)].
Proof.
  rewrite report_log_error_lines. unfold final_code, scanned_code.
  rewrite (scan_lines_unread ovf _ _ Hunread).
  destruct (empty (errmsg st)); reflexivity.
Qed.

(** An abort message in plain words, at the sample codes: code 25. *)
Lemma message_without_code_reports_fallback_witness :
  Forall (fun line => scans_number line = false)
         (Split (errmsg (state_with ("Error: no space" ++ LF ++ "giving up") 0 0)) LF)
  /\ log_error_lines (events_of
       (ParseAndReportErrorCode spec_codes (fun _ => 0)
          (state_with ("Error: no space" ++ LF ++ "giving up") 0 0)))
     = ["log error: 25" ++ LF].
Proof.
  assert (Hunread :
    Forall (fun line => scans_number line = false)
           (Split (errmsg (state_with ("Error: no space" ++ LF ++ "giving up") 0 0)) LF)).
  { repeat constructor. }
  split; [exact Hunread|].
  rewrite (message_without_code_reports_fallback spec_codes (fun _ => 0) _ Hunread).
  reflexivity.
Defined.

(** ** The outcome of [RunUpdate] *)

Lemma log_error_lines_app (t1 t2 : list event) :
  log_error_lines (t1 ++ t2) = (log_error_lines t1 ++ log_error_lines t2)%list.
Proof. unfold log_error_lines. rewrite pipe_writes_app. apply filter_app. Qed.

(** X15. [RunUpdate] returns true exactly when the parse succeeds (value 0,
    no error counted) and the evaluation reports success. It writes a
    [log error:] line exactly when the parse succeeds and the evaluation
    fails, and never more than one. *)
Theorem RunUpdate_outcome (codes : ErrorCodes) (ovf : Z -> Z) (Expr : Type)
    (ParseString : string -> Z * Expr * Z)
    (Evaluate : State -> Expr -> bool * string * State) (self : Updater) :
  let parsed := ParseString (updater_script_ self) in
  let evaluated := Evaluate (fresh_state codes self) (snd (fst parsed)) in
  let r := RunUpdate codes ovf Expr ParseString Evaluate self in
  (fst (value_of r) = true
   <-> fst (fst parsed) = 0 /\ snd parsed <= 0 /\ fst (fst evaluated) = true)
  /\ (log_error_lines (events_of r) <> []
      <-> fst (fst parsed) = 0 /\ snd parsed <= 0 /\ fst (fst evaluated) = false)
  /\ (length (log_error_lines (events_of r)) <= 1)%nat.
Proof.
  cbv zeta.
  destruct (ParseString (updater_script_ self)) as [[error root] error_count] eqn:Hparse.
  cbn [fst snd].
  destruct (Z.eq_dec error 0) as [-> | Herror];
    [destruct (Z_le_gt_dec error_count 0) as [Hcount | Hcount]|].
  - destruct (Evaluate (fresh_state codes self) root) as [[status result] st] eqn:Heval.
    cbn [fst]. destruct status.
    + destruct (RunUpdate_success codes ovf Expr ParseString Evaluate
                  self root error_count result st Hparse Hcount Heval) as (-> & ->).
      cbn [fst].
      assert (Hnone : log_error_lines
                ([EParseString (updater_script_ self); ENewState (is_retry_ self);
                  EEvaluate; EFprintf (success_line result)]
                 ++ (if (empty result && negb (cause_code st =? kNoCause codes))%bool
                     then [EFprintf (log_cause_line (cause_code st))] else [])) = []).
      { destruct (empty result && negb (cause_code st =? kNoCause codes))%bool;
          reflexivity. }
      rewrite Hnone.
      split; [split; [intros _; repeat split; assumption | reflexivity]|].
      split; [|cbn [length]; lia].
      split; [intro H; contradiction H; reflexivity
             | intros (_ & _ & H); discriminate H].
    + destruct (RunUpdate_failure codes ovf Expr ParseString Evaluate
                  self root error_count result st Hparse Hcount Heval) as (-> & ->).
      cbn [fst]. rewrite log_error_lines_app, report_log_error_lines.
      change (log_error_lines [EParseString (updater_script_ self);
                               ENewState (is_retry_ self); EEvaluate])
        with (@nil string).
      cbn [app length].
      split; [split; [intro H; discriminate H | intros (_ & _ & H); discriminate H]|].
      split; [|lia].
      split; [intros _; repeat split; assumption | intros _; discriminate].
  - rewrite (RunUpdate_parse_failure codes ovf Expr ParseString Evaluate
               self 0 root error_count Hparse (or_intror Hcount)).
    cbn [value_of events_of fst snd].
    change (log_error_lines
              [EParseString (updater_script_ self);
               ELog ERROR (string_of_int error_count ++ " parse errors")])
      with (@nil string).
    split; [split; [intro H; discriminate H | intros (_ & H & _); lia]|].
    split; [|cbn [length]; lia].
    split; [intro H; contradiction H; reflexivity | intros (_ & H & _); lia].
  - rewrite (RunUpdate_parse_failure codes ovf Expr ParseString Evaluate
               self error root error_count Hparse (or_introl Herror)).
    cbn [value_of events_of fst snd].
    change (log_error_lines
              [EParseString (updater_script_ self);
               ELog ERROR (string_of_int error_count ++ " parse errors")])
      with (@nil string).
    split; [split; [intro H; discriminate H | intros (H & _); contradiction]|].
    split; [|cbn [length]; lia].
    split; [intro H; contradiction H; reflexivity | intros (H & _); contradiction].
Qed.

Lemma newline_free_app_eq (a b : string) :
  newline_free (a ++ b) = (newline_free a && newline_free b)%bool.
Proof.
  induction a as [|c a IH]; [reflexivity|].
  cbn [append newline_free]. rewrite IH. apply andb_assoc.
Qed.

Lemma success_line_single (result : string) :
  single_line (success_line result) = newline_free (c_str result).
Proof.
  rewrite success_line_eq.
  assert (H : "ui_print script succeeded: result was [" ++ c_str result ++ "]" ++ LF
              = ("ui_print script succeeded: result was [" ++ c_str result ++ "]") ++ LF).
  { generalize (c_str result). intro s.
    change ("ui_print script succeeded: result was [" ++ s ++ "]" ++ LF)
      with ("ui_print script succeeded: result was [" ++ (s ++ "]" ++ LF)).
    change (("ui_print script succeeded: result was [" ++ s ++ "]") ++ LF)
      with ("ui_print script succeeded: result was [" ++ ((s ++ "]") ++ LF)).
    f_equal. induction s as [|c s IH]; [reflexivity|].
    cbn [append]. f_equal. exact IH. }
  rewrite H, single_line_app_LF_eq, !newline_free_app_eq.
  cbn [newline_free]. change (negb (Ascii.eqb "]" nl)) with true.
  rewrite !andb_true_r.
  reflexivity.
Qed.

(** X16. When the evaluation succeeds, what [RunUpdate] writes to the pipe is
    a sequence of whole lines exactly when the result string (as C text)
    holds no newline: a newline in the result splits the success line. *)
Theorem success_line_is_one_line_iff (codes : ErrorCodes) (ovf : Z -> Z) (Expr : Type)
    (ParseString : string -> Z * Expr * Z)
    (Evaluate : State -> Expr -> bool * string * State) (self : Updater)
    (root : Expr) (error_count : Z) (result : string) (st : State)
    (Hparse : ParseString (updater_script_ self) = (0, root, error_count))
    (Hcount : error_count <= 0)
    (Heval : Evaluate (fresh_state codes self) root = (true, result, st)) :
  Forall (fun chunk => single_line chunk = true)
         (pipe_writes (events_of (RunUpdate codes ovf Expr ParseString Evaluate self)))
  <-> newline_free (c_str result) = true.
Proof.
  destruct (RunUpdate_success codes ovf Expr ParseString Evaluate
              self root error_count result st Hparse Hcount Heval) as (_ & ->).
  rewrite pipe_writes_app. cbn [pipe_writes app].
  split.
  - intro H. inversion H as [|? ? Hhead _]; subst.
    rewrite success_line_single in Hhead. exact Hhead.
  - intro H. constructor; [rewrite success_line_single; exact H|].
    destruct (empty result && negb (cause_code st =? kNoCause codes))%bool;
      cbn [pipe_writes]; [|constructor].
    constructor; [apply log_cause_line_single | constructor].
Qed.

(** The result "done" gives one whole line. *)
Lemma success_line_is_one_line_iff_witness :
  parse_with 0 0 (updater_script_ sample_updater) = (0, tt, 0)
  /\ 0 <= 0
  /\ evaluate_to true "done" (state_with EmptyString 0 0)
       (fresh_state spec_codes sample_updater) tt
     = (true, "done", state_with EmptyString 0 0)
  /\ Forall (fun chunk => single_line chunk = true)
       (pipe_writes (events_of
          (RunUpdate spec_codes (fun _ => 0) unit (parse_with 0 0)
             (evaluate_to true "done" (state_with EmptyString 0 0)) sample_updater))).
Proof.
  assert (Hparse : parse_with 0 0 (updater_script_ sample_updater) = (0, tt, 0))
    by reflexivity.
  assert (Hcount : 0 <= 0) by lia.
  assert (Heval : evaluate_to true "done" (state_with EmptyString 0 0)
                    (fresh_state spec_codes sample_updater) tt
                  = (true, "done", state_with EmptyString 0 0)) by reflexivity.
  repeat (split; [assumption|]).
  apply (success_line_is_one_line_iff spec_codes (fun _ => 0) unit (parse_with 0 0)
           (evaluate_to true "done" (state_with EmptyString 0 0))
           sample_updater tt 0 "done" (state_with EmptyString 0 0) Hparse Hcount Heval).
  reflexivity.
Defined.

(** ** Concrete runs of [Init] *)

(** The scenario of the spec: the package lacks the script entry ([FindEntry]
    returns -1); [Init] writes nothing to the pipe and logs one error. *)
Lemma Init_reports_failure_in_log_only_witness :
  fst (fst (sample_Init (- 1) nullptr)) = false
  /\ pipe_writes (events_in (snd (sample_Init (- 1) nullptr))) = []
  /\ exists text, log_lines (events_in (snd (sample_Init (- 1) nullptr))) = [(ERROR, text)].
Proof.
  assert (Hfalse : fst (fst (sample_Init (- 1) nullptr)) = false) by reflexivity.
  split; [exact Hfalse|].
  exact (proj1 (Init_reports_failure_in_log_only unit Z sample_fdopen sample_MapFile
                  sample_OpenArchiveFromMemory (sample_FindEntry (- 1))
                  sample_ExtractToMemory sample_ErrorCodeString (fun entry => entry)
                  "META-INF/com/google/android/updater-script"
                  3 "/cache/update.zip" true nullptr sample_object) Hfalse).
Defined.

(** A package that holds the script "ui_print(1);": [Init] succeeds and the
    updater still holds the script it had before. *)
Lemma Init_does_not_store_the_script_witness :
  fst (fst (sample_Init 0 nullptr)) = true
  /\ updater_script_ (members (snd (fst (sample_Init 0 nullptr))))
     = updater_script_ sample_updater.
Proof.
  split; [reflexivity|].
  exact (proj1 (Init_does_not_store_the_script unit Z sample_fdopen sample_MapFile
                  sample_OpenArchiveFromMemory (sample_FindEntry 0)
                  sample_ExtractToMemory sample_ErrorCodeString (fun entry => entry)
                  "META-INF/com/google/android/updater-script"
                  3 "/cache/update.zip" true nullptr sample_object)).
Defined.

(** ** The two ways of forwarding a message *)

(** For the message "a\n", [UiPrint] writes the one line [ui_print a] and
    skips the empty piece after the newline, as its comment says; the failure
    report, with the same split, writes [ui_print a] and an empty [ui_print]
    line. *)
Lemma report_and_UiPrint_differ_after_final_newline :
  pipe_writes (events_of (UiPrint ("a" ++ LF))) = ["ui_print a" ++ LF]
  /\ ui_print_lines (events_of
       (ParseAndReportErrorCode spec_codes (fun _ => 0)
          (state_with ("a" ++ LF) 0 0)))
     = ["ui_print a" ++ LF; "ui_print " ++ LF].
Proof. split; reflexivity. Qed.
